(** * QCut end-to-end diagnostics: the two helper scripts

    A shallow embedding of

    - [docs/issues/e2e-test-errors/check-test-progress.py]
      (module [CheckTestProgress]) and
    - [docs/issues/e2e-test-errors/count-projects.py]
      (module [CountProjects]),

    together with the part of Python they rely on: text ([PyStr]),
    the binary64 arithmetic behind [/], [*], [int()] and [:.2f]
    ([Float]), the file tree the scripts inspect ([FS]) and the
    effects they have on it ([Py]). *)

From Stdlib Require Import ZArith List String Ascii Bool Lia.
From Stdlib Require Import DecimalString Sorted Permutation.
Import ListNotations.

Local Open Scope Z_scope.

(** ** Python text *)

Module PyStr.

(** A Python [str] is a sequence of Unicode code points; slicing and
    [len] count code points, not bytes. *)
Definition char := N.
Definition str := list char.

(** An ASCII literal of the source. *)
Definition lit (s : string) : str :=
  map N_of_ascii (list_ascii_of_string s).
Arguments lit s%_string.

(** [str(n)] for an [int]: decimal digits, with a leading [-] when
    negative. *)
Definition str_int (n : Z) : str :=
  lit (NilZero.string_of_int (Z.to_int n)).

(** [c * k] for a one-character string [c]. *)
Definition times (c : string) (k : nat) : str :=
  List.concat (repeat (lit c) k).
Arguments times c%_string k%_nat.

(** [s[:k]] *)
Definition slice_to (k : nat) (s : str) : str := firstn k s.

(** [len(l)] *)
Definition len {A} (l : list A) : Z := Z.of_nat (List.length l).

Fixpoint eqb (a b : str) : bool :=
  match a, b with
  | [], [] => true
  | x :: a', y :: b' => N.eqb x y && eqb a' b'
  | _, _ => false
  end.

(** [s.startswith(prefix)] *)
Fixpoint starts_with (prefix s : str) : bool :=
  match prefix, s with
  | [], _ => true
  | x :: prefix', y :: s' => N.eqb x y && starts_with prefix' s'
  | _ :: _, [] => false
  end.

(** Whether [x] occurs in [l], and whether no string occurs twice. *)
Fixpoint member (x : str) (l : list str) : bool :=
  match l with
  | [] => false
  | y :: l' => eqb x y || member x l'
  end.

Fixpoint distinct (l : list str) : bool :=
  match l with
  | [] => true
  | x :: l' => negb (member x l') && distinct l'
  end.

Definition newline : str := [10%N].

(** The pictographs used in the messages. *)
Definition check_mark : str := [0x2705%N].
Definition hourglass : str := [0x23F3%N].
Definition warning_sign : str := [0x26A0%N; 0xFE0F%N].
Definition cross_mark : str := [0x274C%N].
Definition file_folder : str := [0x1F4C1%N].
Definition floppy_disk : str := [0x1F4BE%N].
Definition package : str := [0x1F4E6%N].
Definition light_bulb : str := [0x1F4A1%N].

End PyStr.

(** ** Binary64 arithmetic

    The scripts divide two [int]s with [/], multiply the quotient by
    [100], truncate with [int()] and format with [:.2f].  All four are
    correctly rounded operations on IEEE-754 doubles.  Every value that
    occurs is finite and non-negative, so a double is kept as a
    significand and an exponent, standing for [mant * 2^expo].  The
    53-bit precision is modelled exactly; the exponent range is not
    (a quotient reaches [2^1024] only for a count or a byte total
    beyond [2^1024]). *)

Module Float.

Record float := mk { mant : Z; expo : Z }.

Definition zero : float := mk 0 0.

(** The integer nearest to [n / d], ties to the even one ([d > 0]). *)
Definition rne (n d : Z) : Z :=
  let q := n / d in
  let r := n mod d in
  match 2 * r ?= d with
  | Lt => q
  | Gt => q + 1
  | Eq => if Z.even q then q else q + 1
  end.

(** [2^k] for [k >= 0], [1] otherwise. *)
Definition pow2 (k : Z) : Z := 2 ^ Z.max 0 k.

(** [floor (log2 (n / d))] for [n, d > 0]. *)
Definition ilog2_ratio (n d : Z) : Z :=
  let k := Z.log2 n - Z.log2 d in
  if d * pow2 k <=? n * pow2 (- k) then k else k - 1.

(** The double nearest to [n / d] ([n >= 0], [d > 0]): the exponent is
    chosen so that the significand has 53 bits, then the significand is
    rounded to nearest, ties to even. *)
Definition round_ratio (n d : Z) : float :=
  if n <=? 0 then zero
  else
    let e := ilog2_ratio n d - 52 in
    mk (rne (n * pow2 (- e)) (d * pow2 e)) e.

(** [float(n)] *)
Definition of_int (n : Z) : float := round_ratio n 1.

(** [a / b] on two [int]s: the correctly rounded quotient. *)
Definition int_truediv (a b : Z) : float := round_ratio a b.

(** [x * y] on two doubles: the correctly rounded product. *)
Definition mul (x y : float) : float :=
  let e := expo x + expo y in
  round_ratio (mant x * mant y * pow2 e) (pow2 (- e)).

(** [int(x)]: truncation (towards zero; [x >= 0] here). *)
Definition to_int (x : float) : Z :=
  (mant x * pow2 (expo x)) / pow2 (- expo x).

(** The number of hundredths nearest to [x], ties to even: what
    [:.2f] prints, without the decimal point. *)
Definition hundredths (x : float) : Z :=
  rne (100 * mant x * pow2 (expo x)) (pow2 (- expo x)).

(** [range(a, a + n)] *)
Definition zrange (a : Z) (n : nat) : list Z :=
  map (fun i => a + Z.of_nat i) (seq 0 n).

(** Whether dividing a remainder [s] by 66 on a grid of step [2^-p1],
    multiplying by 100 on a grid of step [2^-p2] and truncating gives
    the floor of [100 * s / 66]. *)
Definition grid_ok (s p1 p2 : Z) : bool :=
  rne (100 * rne (s * 2 ^ p1) 66 * 2 ^ p2) (2 ^ p1) / 2 ^ p2 =? 100 * s / 66.

(** A number of hundredths written with two decimals. *)
Definition two_decimals (h : Z) : PyStr.str :=
  (PyStr.str_int (h / 100) ++ PyStr.lit "."
   ++ PyStr.str_int (h mod 100 / 10) ++ PyStr.str_int (h mod 10))%list.

(** [f"{x:.2f}"] *)
Definition format_2f (x : float) : PyStr.str := two_decimals (hundredths x).

End Float.

(** ** The file tree under inspection *)

Module FS.
Import PyStr.

(** What the scripts can find at a path: a regular file with its size
    in bytes, or a directory with its entries in the order the
    operating system lists them.  [st_mtime] is the modification time
    as [os.path.getmtime] returns it, on an integer scale; only its
    order and its clock rendering are used.  Entry names are compared
    exactly. *)
#[warnings="-register-all"]
Inductive node : Type :=
| File (st_size : Z) (st_mtime : Z)
| Dir (st_mtime : Z) (entries : list (str * node)).

(** A path is the list of components below the directory the script
    starts from ([results_dir], [qcut_dir]); [p / c] appends one. *)
Definition path := list str.

Definition join (p : path) (c : str) : path := p ++ [c].

Fixpoint find_entry (c : str) (es : list (str * node)) : option node :=
  match es with
  | [] => None
  | (name, n) :: es' => if eqb name c then Some n else find_entry c es'
  end.

Fixpoint lookup (n : node) (p : path) : option node :=
  match p with
  | [] => Some n
  | c :: p' =>
      match n with
      | File _ _ => None
      | Dir _ es =>
          match find_entry c es with
          | Some n' => lookup n' p'
          | None => None
          end
      end
  end.

(** The start directory itself may be missing: the tree is optional. *)
Definition resolve (root : option node) (p : path) : option node :=
  match root with
  | Some n => lookup n p
  | None => None
  end.

Definition is_dir_node (n : node) : bool :=
  match n with Dir _ _ => true | File _ _ => false end.

Definition is_file_node (n : node) : bool :=
  match n with File _ _ => true | Dir _ _ => false end.

Definition mtime_of (n : node) : Z :=
  match n with File _ t => t | Dir t _ => t end.

Definition size_of (n : node) : Z :=
  match n with File s _ => s | Dir _ _ => 0 end.

Definition names (es : list (str * node)) : list str := map fst es.

(** Everything below a directory, at any depth: its own entries first,
    then the contents of each subdirectory in turn.  This is the order
    of [Path.rglob("*")]. *)
Fixpoint descendants (prefix : path) (n : node) : list path :=
  match n with
  | File _ _ => []
  | Dir _ es =>
      map (fun e => join prefix (fst e)) es ++
      (fix below (es : list (str * node)) : list path :=
         match es with
         | [] => []
         | (name, child) :: es' =>
             descendants (join prefix name) child ++ below es'
         end) es
  end.

(** A tree is well formed when no directory lists a name twice. *)
Fixpoint wf (n : node) : Prop :=
  match n with
  | File _ _ => True
  | Dir _ es =>
      NoDup (names es) /\
      (fix all (es : list (str * node)) : Prop :=
         match es with
         | [] => True
         | (_, child) :: es' => wf child /\ all es'
         end) es
  end.

(** Everything strictly below a node, in the order of [descendants]. *)
Fixpoint nodes_under (n : node) : list node :=
  match n with
  | File _ _ => []
  | Dir _ es =>
      map snd es ++
      (fix below (es : list (str * node)) : list node :=
         match es with
         | [] => []
         | (_, child) :: es' => nodes_under child ++ below es'
         end) es
  end.

(** The regular files and the directories below a node, at any depth. *)
Definition files_under (n : node) : list node :=
  filter is_file_node (nodes_under n).

Definition dirs_under (n : node) : list node :=
  filter is_dir_node (nodes_under n).

(** The bytes held by a list of files. *)
Definition total_bytes (files : list node) : Z :=
  fold_right (fun n acc => size_of n + acc) 0 files.

End FS.

(** ** Effects: the Python calls the scripts make *)

Module Py.
Import PyStr FS.

(** What a run can see and change: the tree at the start directory,
    the wall clock, and what has been printed so far (one element per
    [print] call). *)
Record world := mkWorld {
  fs : option node;
  clock : Z;
  stdout : list str
}.

Inductive exn := FileNotFoundError | NotADirectoryError.

(** What the interpreter and the operating system supply: how a time
    is rendered in the local zone, which strings the two start
    directories are spelled as, and how [glob] compares a pattern
    character with a name character.  The renderings are taken as
    given for every timestamp the tree holds. *)
Record platform := mkPlatform {
  strftime_date_time : Z -> str;
  strftime_time : Z -> str;
  results_dir_name : str;
  qcut_dir_name : str;
  glob_same_char : char -> char -> bool
}.

Inductive result (A : Type) :=
| Ok (a : A)
| Raise (e : exn).
Arguments Ok {A} a.
Arguments Raise {A} e.

(** A computation runs in a world and either returns or raises; an
    exception that nothing catches ends the script. *)
Definition M (A : Type) := world -> result A * world.

Definition ret {A} (a : A) : M A := fun w => (Ok a, w).

Definition bind {A B} (m : M A) (k : A -> M B) : M B :=
  fun w =>
    match m w with
    | (Ok a, w') => k a w'
    | (Raise e, w') => (Raise e, w')
    end.

Definition raise {A} (e : exn) : M A := fun w => (Raise e, w).

Declare Scope py_scope.
Delimit Scope py_scope with py.
Notation "x <- m ;; k" := (bind m (fun x => k))
  (at level 61, m at next level, right associativity) : py_scope.
Notation "m ;; k" := (bind m (fun _ => k))
  (at level 61, right associativity) : py_scope.
Local Open Scope py_scope.

(** [print(s)] *)
Definition print (s : str) : M unit :=
  fun w => (Ok tt, mkWorld (fs w) (clock w) (stdout w ++ [s])).

(** Reading the tree at a path. *)
Definition stat_node (p : path) : M (option node) :=
  fun w => (Ok (resolve (fs w) p), w).

(** [datetime.now()] *)
Definition datetime_now : M Z := fun w => (Ok (clock w), w).

(** [os.path.exists(p)], [Path.exists()] *)
Definition exists_ (p : path) : M bool :=
  n <- stat_node p ;;
  ret (match n with Some _ => true | None => false end).

(** [os.path.isdir(p)], [Path.is_dir()] *)
Definition is_dir (p : path) : M bool :=
  n <- stat_node p ;;
  ret (match n with Some n => is_dir_node n | None => false end).

(** [Path.is_file()] *)
Definition is_file (p : path) : M bool :=
  n <- stat_node p ;;
  ret (match n with Some n => is_file_node n | None => false end).

(** [os.listdir(p)] *)
Definition listdir (p : path) : M (list str) :=
  n <- stat_node p ;;
  match n with
  | Some (Dir _ es) => ret (names es)
  | Some (File _ _) => raise NotADirectoryError
  | None => raise FileNotFoundError
  end.

(** [os.path.getmtime(p)] *)
Definition getmtime (p : path) : M Z :=
  n <- stat_node p ;;
  match n with
  | Some n => ret (mtime_of n)
  | None => raise FileNotFoundError
  end.

(** [p.stat().st_size] *)
Definition stat_st_size (p : path) : M Z :=
  n <- stat_node p ;;
  match n with
  | Some n => ret (size_of n)
  | None => raise FileNotFoundError
  end.

(** [fnmatch] for patterns made of literal characters, [?] and [*];
    [same] says when a pattern character matches a name character
    (equality, or equality up to case on Windows). *)
Fixpoint fnmatch (same : char -> char -> bool) (pat name : str) : bool :=
  match pat with
  | [] => match name with [] => true | _ => false end
  | c :: pat' =>
      if N.eqb c 42 then
        (fix star (name : str) : bool :=
           fnmatch same pat' name ||
           match name with
           | [] => false
           | _ :: name' => star name'
           end) name
      else
        match name with
        | [] => false
        | d :: name' =>
            (N.eqb c 63 || same c d) && fnmatch same pat' name'
        end
  end.

(** [list(p.glob(pat))] for a pattern with no separator: the entries
    of [p] whose name matches; nothing when [p] is not a directory. *)
Definition glob (same : char -> char -> bool) (p : path) (pat : str)
  : M (list path) :=
  n <- stat_node p ;;
  match n with
  | Some (Dir _ es) =>
      ret (map (join p) (filter (fnmatch same pat) (names es)))
  | _ => ret []
  end.

(** [list(p.rglob("*"))]: everything below [p]; nothing when [p] is
    not a directory. *)
Definition rglob_star (p : path) : M (list path) :=
  n <- stat_node p ;;
  match n with
  | Some n => ret (descendants p n)
  | None => ret []
  end.

(** [[x for x in l if f(x)]] with an effectful test. *)
Fixpoint filterM {A} (f : A -> M bool) (l : list A) : M (list A) :=
  match l with
  | [] => ret []
  | x :: l' =>
      b <- f x ;;
      rest <- filterM f l' ;;
      ret (if b then x :: rest else rest)
  end.

(** [for x in l: acc = body(acc, x)] *)
Fixpoint foldM {A S} (body : S -> A -> M S) (l : list A) (acc : S) : M S :=
  match l with
  | [] => ret acc
  | x :: l' => acc' <- body acc x ;; foldM body l' acc'
  end.

(** [for x in l: body(x)] *)
Fixpoint for_each {A} (l : list A) (body : A -> M unit) : M unit :=
  match l with
  | [] => ret tt
  | x :: l' => body x ;; for_each l' body
  end.

(** [a and b], where [b] is evaluated only when [a] holds. *)
Definition and_then (a : bool) (b : M bool) : M bool :=
  if a then b else ret false.

(** [enumerate(l, start)] *)
Fixpoint enumerate {A} (start : Z) (l : list A) : list (Z * A) :=
  match l with
  | [] => []
  | x :: l' => (start, x) :: enumerate (start + 1) l'
  end.

(** [l.sort(key=key, reverse=True)]: a stable sort into descending key
    order; elements with equal keys keep their relative order. *)
Fixpoint insert_desc {A} (key : A -> Z) (x : A) (l : list A) : list A :=
  match l with
  | [] => [x]
  | y :: l' =>
      if key x <? key y then y :: insert_desc key x l' else x :: l
  end.

Definition sort_reverse {A} (key : A -> Z) (l : list A) : list A :=
  fold_right (insert_desc key) [] l.

(** Orderings by key, most recent first. *)
Definition newer_or_same {A} (key : A -> Z) (a b : A) : Prop := key b <= key a.

(** The path tests as functions of the tree. *)
Definition exists_at (root : option node) (p : path) : bool :=
  match resolve root p with Some _ => true | None => false end.

Definition is_dir_at (root : option node) (p : path) : bool :=
  match resolve root p with Some n => is_dir_node n | None => false end.

Definition is_file_at (root : option node) (p : path) : bool :=
  match resolve root p with Some n => is_file_node n | None => false end.

(** [glob] and [rglob] as functions of the tree. *)
Definition glob_at (same : char -> char -> bool) (root : option node)
  (p : path) (pat : str) : list path :=
  match resolve root p with
  | Some (Dir _ es) => map (join p) (filter (fnmatch same pat) (names es))
  | _ => []
  end.

Definition below_at (root : option node) (p : path) : list path :=
  match resolve root p with
  | Some n => descendants p n
  | None => []
  end.

(** A path reaches a node. *)
Definition reaches (root : option node) (p : path) (n : node) : Prop :=
  resolve root p = Some n.

(** [after w out] is [w] with [out] printed and nothing else changed. *)
Definition after (w : world) (out : list str) : world :=
  mkWorld (fs w) (clock w) (stdout w ++ out).

(** [m] returns [a] normally, printing [out] and touching nothing
    else. *)
Definition returns {A} (m : M A) (w : world) (a : A) (out : list str)
  : Prop :=
  m w = (Ok a, after w out).

(** [m] leaves the file tree as it found it, however it ends. *)
Definition read_only {A} (m : M A) : Prop :=
  forall w, fs (snd (m w)) = fs w.

End Py.

(** ** check-test-progress.py *)

Module CheckTestProgress.
Import PyStr FS Py.
Local Open Scope py_scope.

Definition CHECKPOINT_TIME : str := lit "2025-10-23 15:38:30".
Definition CHECKPOINT_COUNT : Z := 40.
Definition TOTAL_TESTS : Z := 66.

(** [results_dir] is where the script starts from. *)
Definition results_dir : path := [].

(** [int(test_count/TOTAL_TESTS*100)] *)
Definition percent (test_count : Z) : Z :=
  Float.to_int
    (Float.mul (Float.int_truediv test_count TOTAL_TESTS) (Float.of_int 100)).

(** Lines 36-44: the comparison with the checkpoint. *)
Definition compare_with_checkpoint (test_count : Z) : M unit :=
  if test_count >? CHECKPOINT_COUNT then
    let progress := test_count - CHECKPOINT_COUNT in
    print (check_mark ++ lit " Progress: +" ++ str_int progress
           ++ lit " tests since checkpoint") ;;
    let remaining := TOTAL_TESTS - test_count in
    print (hourglass ++ lit " Remaining: " ++ str_int remaining
           ++ lit " tests")
  else if test_count =? CHECKPOINT_COUNT then
    print (warning_sign
           ++ lit "  No progress since checkpoint (tests may have stalled or be slow)")
  else
    print (cross_mark ++ lit " Test count decreased (unexpected)").

Section Script.
Variable pf : platform.

(** Lines 52-65: the most recent results. *)
Definition most_recent : M unit :=
  ds <- listdir results_dir ;;
  test_dirs <-
    foldM (fun test_dirs d =>
             let full_path := join results_dir d in
             isd <- is_dir full_path ;;
             if isd : bool then
               mtime <- getmtime full_path ;;
               ret (test_dirs ++ [(d, mtime)])
             else ret test_dirs)
          ds [] ;;
  let test_dirs := sort_reverse snd test_dirs in
  for_each (enumerate 1 (firstn 5 test_dirs))
    (fun '(i, (test_name, mtime)) =>
       let time_str := strftime_time pf mtime in
       print (str_int i ++ lit ". [" ++ time_str ++ lit "] "
              ++ slice_to 70 test_name)).

(** The whole module body. *)
Definition main : M unit :=
  now <- datetime_now ;;
  let current_time := strftime_date_time pf now in
  print (lit "Current Time: " ++ current_time) ;;
  print (lit "Checkpoint Time: " ++ CHECKPOINT_TIME) ;;
  print (times "-" 60) ;;
  found <- exists_ results_dir ;;
  (if found : bool then
     ds <- listdir results_dir ;;
     kept <- filterM (fun d => is_dir (join results_dir d)) ds ;;
     let test_count := len kept in
     print (lit "Tests Completed: " ++ str_int test_count ++ lit "/"
            ++ str_int TOTAL_TESTS ++ lit " ("
            ++ str_int (percent test_count) ++ lit "%)") ;;
     print (lit "Checkpoint Count: " ++ str_int CHECKPOINT_COUNT ++ lit "/"
            ++ str_int TOTAL_TESTS ++ lit " (61%)") ;;
     print (times "-" 60) ;;
     compare_with_checkpoint test_count ;;
     print (newline ++ times "=" 60) ;;
     print (lit "Most Recent Test Results (last 5):") ;;
     print (times "=" 60) ;;
     most_recent
   else
     print (cross_mark ++ lit " Results directory not found: "
            ++ results_dir_name pf)) ;;
  print (newline ++ times "=" 60).

End Script.

(** The lines of a report, one definition per [print]. *)

Definition banner (pf : platform) (now : Z) : list str :=
  [lit "Current Time: " ++ strftime_date_time pf now;
   lit "Checkpoint Time: " ++ CHECKPOINT_TIME;
   times "-" 60].

Definition completed_line (count pct : Z) : str :=
  lit "Tests Completed: " ++ str_int count ++ lit "/66 ("
  ++ str_int pct ++ lit "%)".

Definition checkpoint_line : str := lit "Checkpoint Count: 40/66 (61%)".

Definition progress_line (delta : Z) : str :=
  check_mark ++ lit " Progress: +" ++ str_int delta
  ++ lit " tests since checkpoint".

Definition remaining_line (left : Z) : str :=
  hourglass ++ lit " Remaining: " ++ str_int left ++ lit " tests".

Definition stalled_line : str :=
  warning_sign
  ++ lit "  No progress since checkpoint (tests may have stalled or be slow)".

Definition decreased_line : str :=
  cross_mark ++ lit " Test count decreased (unexpected)".

Definition comparison (count : Z) : list str :=
  if count >? 40 then [progress_line (count - 40); remaining_line (66 - count)]
  else if count =? 40 then [stalled_line]
  else [decreased_line].

Definition recent_header : list str :=
  [newline ++ times "=" 60;
   lit "Most Recent Test Results (last 5):";
   times "=" 60].

Definition recent_line (pf : platform) (i : Z) (entry : str * Z) : str :=
  str_int i ++ lit ". [" ++ strftime_time pf (snd entry) ++ lit "] "
  ++ firstn 70 (fst entry).

Definition recent_lines (pf : platform) (shown : list (str * Z)) : list str :=
  map (fun ie => recent_line pf (fst ie) (snd ie)) (enumerate 1 shown).


Definition footer : str := newline ++ times "=" 60.

(** The immediate subdirectories of the results directory, as listed,
    each with its name and modification time. *)
Definition subdirs (es : list (str * node)) : list (str * Z) :=
  map (fun e => (fst e, mtime_of (snd e)))
      (filter (fun e => is_dir_node (snd e)) es).

(** The immediate entries that are not directories. *)
Definition others (es : list (str * node)) : list (str * node) :=
  filter (fun e => negb (is_dir_node (snd e))) es.

(** One round of the loop at lines 53-57, as a function of the tree. *)
Definition collect (root : option node) (test_dirs : list (str * Z)) (d : str)
  : list (str * Z) :=
  match resolve root (join results_dir d) with
  | Some n => if is_dir_node n then test_dirs ++ [(d, mtime_of n)] else test_dirs
  | None => test_dirs
  end.

(** The entries shown under the recent-results heading. *)
Definition shown (es : list (str * node)) : list (str * Z) :=
  firstn 5 (sort_reverse snd (subdirs es)).

(** Everything a run prints when the results directory is a directory
    with entries [es], read at time [now]. *)
Definition report (pf : platform) (now : Z) (es : list (str * node))
  : list str :=
  let count := len (subdirs es) in
  banner pf now
  ++ [completed_line count (percent count); checkpoint_line; times "-" 60]
  ++ comparison count
  ++ recent_header
  ++ recent_lines pf (shown es)
  ++ [footer].

(** Whether a printed line is the remaining-tests line. *)
Definition is_remaining_line (s : str) : bool :=
  starts_with (hourglass ++ lit " Remaining: ") s.

End CheckTestProgress.


(** ** count-projects.py *)

Module CountProjects.
Import PyStr FS Py.
Local Open Scope py_scope.

(** [qcut_dir] is where the script starts from. *)
Definition qcut_dir : path := [].
Definition projects_folder : path := join qcut_dir (lit "projects").
Definition indexeddb_dir : path := join qcut_dir (lit "IndexedDB").

Definition storage_dirs : list str :=
  [lit "Local Storage"; lit "Session Storage"; lit "blob_storage";
   lit "File System"].

(** Line 49: [sum(f.stat().st_size for f in db_regular_files if f.exists())] *)
Definition sum_sizes (db_regular_files : list path) : M Z :=
  foldM (fun total f =>
           present <- exists_ f ;;
           if present : bool then
             size <- stat_st_size f ;; ret (total + size)
           else ret total)
        db_regular_files 0.

(** Lines 38-53: the IndexedDB report. *)
Definition check_indexeddb : M unit :=
  found <- exists_ indexeddb_dir ;;
  if found : bool then
    db_files <- rglob_star indexeddb_dir ;;
    db_dirs <- filterM is_dir db_files ;;
    db_regular_files <- filterM is_file db_files ;;
    print (floppy_disk ++ lit " IndexedDB exists:") ;;
    print (lit "   - " ++ str_int (len db_dirs) ++ lit " directories") ;;
    print (lit "   - " ++ str_int (len db_regular_files) ++ lit " files") ;;
    total_size <- sum_sizes db_regular_files ;;
    let size_mb := Float.int_truediv total_size (1024 * 1024) in
    print (lit "   - Total size: " ++ Float.format_2f size_mb ++ lit " MB")
  else
    print (floppy_disk ++ lit " IndexedDB: does not exist (clean)").

(** Lines 57-62: one of the other storage directories. *)
Definition check_storage (storage : str) : M unit :=
  let storage_path := join qcut_dir storage in
  found <- exists_ storage_path ;;
  if found : bool then
    files <- rglob_star storage_path ;;
    regular <- filterM is_file files ;;
    let file_count := len regular in
    print (package ++ lit " " ++ storage ++ lit ": " ++ str_int file_count
           ++ lit " files")
  else ret tt.

(** Lines 68-75: the verdict. *)
Definition summary (project_files : Z) : M unit :=
  clean <- and_then (project_files =? 0)
             (found <- exists_ indexeddb_dir ;; ret (negb found)) ;;
  if clean : bool then
    print (check_mark ++ lit " DATABASE IS CLEAN - No projects found")
  else
    partly <- and_then (project_files =? 0) (exists_ indexeddb_dir) ;;
    if partly : bool then
      print (warning_sign
             ++ lit "  PARTIALLY CLEAN - No project files, but IndexedDB exists") ;;
      print (lit "   This means cleanup deleted files but not the database")
    else
      print (cross_mark ++ lit " DATABASE HAS DATA - " ++ str_int project_files
             ++ lit " project files found") ;;
      print (lit "   Cleanup may not be working correctly").

Section Script.
Variable pf : platform.

(** Lines 28-34: the project files. *)
Definition check_projects : M Z :=
  found <- exists_ projects_folder ;;
  if found : bool then
    matches <- glob (glob_same_char pf) projects_folder (lit "*.json") ;;
    let project_files := len matches in
    print (file_folder ++ lit " Projects folder: " ++ str_int project_files
           ++ lit " JSON files") ;;
    ret project_files
  else
    print (file_folder ++ lit " Projects folder: does not exist") ;;
    ret 0.

Definition count_projects : M unit :=
  print (times "=" 70) ;;
  print (lit "QCut Project Counter - Understanding Database State") ;;
  print (times "=" 70) ;;
  print (newline ++ lit "Checking directory: " ++ qcut_dir_name pf
         ++ newline) ;;
  found <- exists_ qcut_dir ;;
  if negb found then
    print (cross_mark
           ++ lit " QCut directory does not exist - no projects found")
  else
    project_files <- check_projects ;;
    check_indexeddb ;;
    for_each storage_dirs check_storage ;;
    print (newline ++ times "=" 70) ;;
    print (lit "SUMMARY") ;;
    print (times "=" 70) ;;
    summary project_files ;;
    print (times "=" 70) ;;
    print (newline ++ light_bulb
           ++ lit " TIP: Run this script BEFORE and AFTER tests to verify cleanup") ;;
    print (lit "   Before: python count-projects.py > before.txt") ;;
    print (lit "   After:  python count-projects.py > after.txt") ;;
    print (lit "   Compare: diff before.txt after.txt" ++ newline).

End Script.

(** The lines of a report, one definition per [print]. *)

Definition heading (pf : platform) : list str :=
  [times "=" 70;
   lit "QCut Project Counter - Understanding Database State";
   times "=" 70;
   newline ++ lit "Checking directory: " ++ qcut_dir_name pf ++ newline].


Definition projects_count_line (count : Z) : str :=
  file_folder ++ lit " Projects folder: " ++ str_int count ++ lit " JSON files".

Definition projects_missing_line : str :=
  file_folder ++ lit " Projects folder: does not exist".

Definition store_exists_line : str := floppy_disk ++ lit " IndexedDB exists:".

Definition store_dirs_line (count : Z) : str :=
  lit "   - " ++ str_int count ++ lit " directories".

Definition store_files_line (count : Z) : str :=
  lit "   - " ++ str_int count ++ lit " files".

Definition size_line (megabytes : str) : str :=
  lit "   - Total size: " ++ megabytes ++ lit " MB".

Definition store_missing_line : str :=
  floppy_disk ++ lit " IndexedDB: does not exist (clean)".

Definition storage_count_line (storage : str) (count : Z) : str :=
  package ++ lit " " ++ storage ++ lit ": " ++ str_int count ++ lit " files".

Definition summary_header : list str :=
  [newline ++ times "=" 70; lit "SUMMARY"; times "=" 70].

Definition clean_lines : list str :=
  [check_mark ++ lit " DATABASE IS CLEAN - No projects found"].

Definition partly_lines : list str :=
  [warning_sign
   ++ lit "  PARTIALLY CLEAN - No project files, but IndexedDB exists";
   lit "   This means cleanup deleted files but not the database"].

Definition has_data_lines (count : Z) : list str :=
  [cross_mark ++ lit " DATABASE HAS DATA - " ++ str_int count
   ++ lit " project files found";
   lit "   Cleanup may not be working correctly"].

Definition closing : list str :=
  [times "=" 70;
   newline ++ light_bulb
   ++ lit " TIP: Run this script BEFORE and AFTER tests to verify cleanup";
   lit "   Before: python count-projects.py > before.txt";
   lit "   After:  python count-projects.py > after.txt";
   lit "   Compare: diff before.txt after.txt" ++ newline].

(** The report as a function of the tree. *)

(** The value of [project_files] after lines 28-34. *)
Definition project_files_at (same : char -> char -> bool)
  (root : option node) : Z :=
  if exists_at root projects_folder
  then len (glob_at same root projects_folder (lit "*.json"))
  else 0.

Definition projects_lines (same : char -> char -> bool)
  (root : option node) : list str :=
  if exists_at root projects_folder
  then [projects_count_line (project_files_at same root)]
  else [projects_missing_line].

(** One step of the sum at line 49. *)
Definition add_size (root : option node) (total : Z) (f : path) : Z :=
  match resolve root f with
  | Some n => total + size_of n
  | None => total
  end.

Definition total_size_at (root : option node) : Z :=
  fold_left (add_size root)
    (filter (is_file_at root) (below_at root indexeddb_dir)) 0.

Definition indexeddb_lines (root : option node) : list str :=
  if exists_at root indexeddb_dir then
    [store_exists_line;
     store_dirs_line
       (len (filter (is_dir_at root) (below_at root indexeddb_dir)));
     store_files_line
       (len (filter (is_file_at root) (below_at root indexeddb_dir)));
     size_line
       (Float.format_2f
          (Float.int_truediv (total_size_at root) (1024 * 1024)))]
  else [store_missing_line].

Definition storage_lines (root : option node) (storage : str) : list str :=
  if exists_at root (join qcut_dir storage) then
    [storage_count_line storage
       (len (filter (is_file_at root)
               (below_at root (join qcut_dir storage))))]
  else [].

Definition verdict (root : option node) (project_files : Z) : list str :=
  if (project_files =? 0) && negb (exists_at root indexeddb_dir)
  then clean_lines
  else if (project_files =? 0) && exists_at root indexeddb_dir
  then partly_lines
  else has_data_lines project_files.

(** The byte total in megabytes (1024 * 1024 bytes) written with two
    decimals: the nearest hundredth of the exact quotient, ties to
    even. *)
Definition megabytes_text (total : Z) : str :=
  Float.two_decimals (Float.rne (100 * total) 1048576).

(** [name.endswith(suffix)] *)
Definition ends_with (suffix name : str) : bool :=
  starts_with (rev suffix) (rev name).

(** The regular files among the entries of the projects folder whose
    name ends in [.json]. *)
Definition json_files (es : list (str * node)) : list (str * node) :=
  filter (fun e => is_file_node (snd e) && ends_with (lit ".json") (fst e)) es.

(** What the run prints for one storage name: nothing when nothing is
    there, and one line with the number of regular files below it when
    a well-formed tree is there. *)
Definition storage_reported (root : option node) (storage : str)
  (printed : list str) : Prop :=
  (resolve root [storage] = None -> printed = []) /\
  (forall n, resolve root [storage] = Some n -> wf n ->
     printed = [storage_count_line storage (len (files_under n))]).

(** Everything a run prints when the data directory exists. *)
Definition report (pf : platform) (root : option node) : list str :=
  heading pf
  ++ projects_lines (glob_same_char pf) root
  ++ indexeddb_lines root
  ++ flat_map (storage_lines root) storage_dirs
  ++ summary_header
  ++ verdict root (project_files_at (glob_same_char pf) root)
  ++ closing.

End CountProjects.

(** ** Sample runs *)

Module Samples.
Import PyStr FS Py.

(** A platform that renders a time as its number and compares glob
    characters exactly. *)
Definition sample_platform : platform :=
  mkPlatform str_int str_int
    (lit "/repo/docs/issues/e2e-test-errors/../../completed/test-results-raw")
    (lit "/home/dev/AppData/Roaming/qcut")
    N.eqb.

(** Two finished tests and a stray report file. *)
Definition sample_results : list (str * node) :=
  [(lit "login-test", Dir 30 []);
   (lit "report.html", File 2048 50);
   (lit "upload-test", Dir 40 [(lit "trace.zip", File 10 41)])].

Definition results_world : world :=
  mkWorld (Some (Dir 50 sample_results)) 1000 [].


(** Sixty-seven finished tests, one more than the plan holds. *)
Definition crowded_results : list (str * node) :=
  map (fun i => (str_int (Z.of_nat i), Dir (Z.of_nat i) [])) (seq 1 67).

Definition crowded_world : world :=
  mkWorld (Some (Dir 99 crowded_results)) 1000 [].

(** Six finished tests, the newest with a name of 75 characters, and
    one stray file. *)
Definition busy_results : list (str * node) :=
  [(lit "t1", Dir 10 []);
   (times "n" 75, Dir 60 []);
   (lit "t3", Dir 30 []);
   (lit "t4", Dir 20 []);
   (lit "t5", Dir 50 []);
   (lit "t6", Dir 40 []);
   (lit "summary.json", File 9 70)].

Definition busy_world : world :=
  mkWorld (Some (Dir 70 busy_results)) 1000 [].

(** A data directory with one project, a small store and an empty blob
    directory. *)
Definition sample_store : node :=
  Dir 5 [(lit "leveldb", Dir 6 [(lit "000003.log", File 1048576 7)]);
         (lit "LOCK", File 131072 8)].

Definition sample_data : node :=
  Dir 1 [(lit "projects",
          Dir 2 [(lit "demo.json", File 120 3); (lit "notes.txt", File 5 4)]);
         (lit "IndexedDB", sample_store);
         (lit "blob_storage", Dir 9 [])].

Definition data_world : world := mkWorld (Some sample_data) 1000 [].

(** A data directory with two files under Local Storage, one nested
    file under File System, an empty blob directory and no Session
    Storage. *)
Definition storage_data : node :=
  Dir 1 [(lit "File System",
          Dir 2 [(lit "000", Dir 3 [(lit "p", File 4096 4)])]);
         (lit "blob_storage", Dir 5 []);
         (lit "Local Storage",
          Dir 6 [(lit "leveldb",
                  Dir 7 [(lit "CURRENT", File 16 8); (lit "LOG", File 300 9)])])].

Definition storage_world : world := mkWorld (Some storage_data) 1000 [].

(** A projects folder that holds only a directory named like a
    project file. *)
Definition json_directory_entries : list (str * node) :=
  [(lit "backup.json", Dir 3 [])].

Definition json_directory_world : world :=
  mkWorld (Some (Dir 1 [(lit "projects", Dir 2 json_directory_entries)]))
          1000 [].

(** A store holding one sparse file of [2^53 + 2^17 + 1] bytes. *)
Definition huge_store_world : world :=
  mkWorld
    (Some (Dir 1 [(lit "IndexedDB",
                   Dir 2 [(lit "blob", File (2 ^ 53 + 2 ^ 17 + 1) 3)])]))
    1000 [].

End Samples.

(** * Properties *)

(** ** Rounding *)

Module FloatFacts.
Import Float.

Lemma rne_bounds n d :
  0 < d -> 2 * n - d <= 2 * (d * rne n d) <= 2 * n + d.
Proof.
  intros Hd. unfold rne.
  pose proof (Z.div_mod n d ltac:(lia)) as Hdm.
  pose proof (Z.mod_pos_bound n d Hd) as Hr.
  set (q := n / d) in *. set (r := n mod d) in *.
  destruct (2 * r ?= d) eqn:E.
  - apply Z.compare_eq in E. destruct (Z.even q); lia.
  - rewrite Z.compare_lt_iff in E. lia.
  - rewrite Z.compare_gt_iff in E. lia.
Qed.

Lemma rne_exact k d : 0 < d -> rne (d * k) d = k.
Proof.
  intros Hd. unfold rne.
  rewrite (Z.mul_comm d k), Z.div_mul, Z.mod_mul by lia.
  simpl. destruct d; lia.
Qed.

Lemma rne_scale c n d : 0 < c -> 0 < d -> rne (c * n) (c * d) = rne n d.
Proof.
  intros Hc Hd. unfold rne.
  rewrite Z.div_mul_cancel_l, Z.mul_mod_distr_l by lia.
  replace (2 * (c * (n mod d))) with (c * (2 * (n mod d))) by ring.
  assert (Hcmp : (c * (2 * (n mod d)) ?= c * d) = (2 * (n mod d) ?= d)).
  { destruct (Z.compare_spec (2 * (n mod d)) d) as [H | H | H].
    - rewrite H. apply Z.compare_refl.
    - apply Z.compare_lt_iff. nia.
    - apply Z.compare_gt_iff. nia. }
  now rewrite Hcmp.
Qed.

Lemma pow2_pos k : 0 < pow2 k.
Proof. unfold pow2. apply Z.pow_pos_nonneg; lia. Qed.

Lemma pow2_nonneg k : 0 <= k -> pow2 k = 2 ^ k.
Proof. intros. unfold pow2. now rewrite Z.max_r. Qed.

Lemma pow2_nonpos k : k <= 0 -> pow2 k = 1.
Proof. intros. unfold pow2. now rewrite Z.max_l. Qed.

(** [2^k <= n / d < 2^(k+1)], with the negative powers moved across. *)
Lemma ilog2_ratio_spec n d :
  0 < n -> 0 < d ->
  let k := ilog2_ratio n d in
  d * pow2 k <= n * pow2 (- k) < 2 * (d * pow2 k).
Proof.
  intros Hn Hd. unfold ilog2_ratio.
  pose proof (Z.log2_spec n Hn) as [Hn1 Hn2].
  pose proof (Z.log2_spec d Hd) as [Hd1 Hd2].
  pose proof (Z.log2_nonneg n) as Ha. pose proof (Z.log2_nonneg d) as Hb.
  set (a := Z.log2 n) in *. set (b := Z.log2 d) in *.
  rewrite Z.pow_succ_r in Hn2, Hd2 by lia.
  destruct (d * pow2 (a - b) <=? n * pow2 (- (a - b))) eqn:E.
  - apply Z.leb_le in E. split; [exact E|].
    destruct (Z.le_gt_cases 0 (a - b)) as [Hk | Hk].
    + rewrite (pow2_nonneg (a - b)), (pow2_nonpos (- (a - b))) by lia.
      assert (H3 : 2 ^ a = 2 ^ b * 2 ^ (a - b)).
      { rewrite <- Z.pow_add_r by lia. f_equal; ring. }
      assert (0 < 2 ^ (a - b)) by (apply Z.pow_pos_nonneg; lia). nia.
    + rewrite (pow2_nonpos (a - b)), (pow2_nonneg (- (a - b))) by lia.
      assert (H2 : 2 ^ b = 2 ^ a * 2 ^ (- (a - b))).
      { rewrite <- Z.pow_add_r by lia. f_equal; ring. }
      assert (0 < 2 ^ (- (a - b))) by (apply Z.pow_pos_nonneg; lia). nia.
  - apply Z.leb_gt in E.
    destruct (Z.le_gt_cases 1 (a - b)) as [Hk | Hk].
    + rewrite (pow2_nonneg (a - b)) in E by lia.
      rewrite (pow2_nonpos (- (a - b))) in E by lia.
      rewrite pow2_nonneg by lia. rewrite pow2_nonpos by lia.
      assert (H2 : 2 ^ (a - b) = 2 * 2 ^ (a - b - 1)).
      { rewrite <- Z.pow_succ_r by lia. f_equal; ring. }
      assert (H3 : 2 ^ a = 2 ^ b * 2 ^ (a - b)).
      { rewrite <- Z.pow_add_r by lia. f_equal; ring. }
      assert (0 < 2 ^ (a - b - 1)) by (apply Z.pow_pos_nonneg; lia). nia.
    + rewrite (pow2_nonpos (a - b)) in E by lia.
      rewrite (pow2_nonneg (- (a - b))) in E by lia.
      rewrite (pow2_nonpos (a - b - 1)) by lia.
      rewrite (pow2_nonneg (- (a - b - 1))) by lia.
      assert (H2 : 2 ^ (- (a - b - 1)) = 2 * 2 ^ (- (a - b))).
      { rewrite <- Z.pow_succ_r by lia. f_equal; ring. }
      assert (H3 : 2 * 2 ^ b = 2 ^ a * 2 ^ (- (a - b - 1))).
      { rewrite <- Z.pow_succ_r, <- Z.pow_add_r by lia. f_equal; ring. }
      assert (0 < 2 ^ (- (a - b))) by (apply Z.pow_pos_nonneg; lia). nia.
Qed.

(** A quotient below [2^53] is rounded on a grid of step [2^-p]. *)
Lemma round_ratio_small n d :
  0 < n -> 0 < d -> n < d * 2 ^ 53 ->
  exists p, 0 <= p /\
    round_ratio n d = mk (rne (n * 2 ^ p) d) (- p) /\
    d * 2 ^ 52 <= n * 2 ^ p < d * 2 ^ 53.
Proof.
  intros Hn Hd Hlt.
  pose proof (ilog2_ratio_spec n d Hn Hd) as Hk. cbv zeta in Hk.
  unfold round_ratio. replace (n <=? 0) with false by (symmetry; apply Z.leb_gt; lia).
  set (k := ilog2_ratio n d) in *.
  assert (Hk52 : k <= 52).
  { destruct (Z.le_gt_cases k 52) as [H | H]; [exact H | exfalso].
    rewrite (pow2_nonneg k), (pow2_nonpos (- k)) in Hk by lia.
    assert (2 ^ 53 <= 2 ^ k) by (apply Z.pow_le_mono_r; lia). nia. }
  exists (52 - k). split; [lia|].
  rewrite (pow2_nonpos (k - 52)), (pow2_nonneg (- (k - 52))) by lia.
  replace (- (k - 52)) with (52 - k) by ring.
  replace (- (52 - k)) with (k - 52) by ring.
  rewrite Z.mul_1_r. split; [reflexivity|].
  destruct (Z.le_gt_cases 0 k) as [H | H].
  - rewrite (pow2_nonneg k), (pow2_nonpos (- k)) in Hk by lia.
    assert (H2 : 2 ^ 52 = 2 ^ k * 2 ^ (52 - k)).
    { rewrite <- Z.pow_add_r by lia. now replace (k + (52 - k)) with 52 by ring. }
    assert (0 < 2 ^ (52 - k)) by (apply Z.pow_pos_nonneg; lia).
    change (2 ^ 53) with (2 * 2 ^ 52). rewrite H2. nia.
  - rewrite (pow2_nonpos k), (pow2_nonneg (- k)) in Hk by lia.
    assert (H2 : 2 ^ (52 - k) = 2 ^ 52 * 2 ^ (- k)).
    { rewrite <- Z.pow_add_r by lia. f_equal; ring. }
    rewrite H2. change (2 ^ 53) with (2 * 2 ^ 52). nia.
Qed.

Lemma to_int_small m p : 0 <= p -> to_int (mk m (- p)) = m / 2 ^ p.
Proof.
  intros Hp. unfold to_int. simpl.
  rewrite (pow2_nonpos (- p)) by lia.
  rewrite (pow2_nonneg (- - p)) by lia.
  now rewrite Z.mul_1_r, Z.opp_involutive.
Qed.

Lemma hundredths_small m p :
  0 <= p -> hundredths (mk m (- p)) = rne (100 * m) (2 ^ p).
Proof.
  intros Hp. unfold hundredths. simpl.
  rewrite (pow2_nonpos (- p)) by lia.
  rewrite (pow2_nonneg (- - p)) by lia.
  now rewrite Z.mul_1_r, Z.opp_involutive.
Qed.

Lemma mul_small mx px my py :
  0 <= px -> 0 <= py ->
  mul (mk mx (- px)) (mk my (- py)) = round_ratio (mx * my) (2 ^ px * 2 ^ py).
Proof.
  intros Hx Hy. unfold mul. simpl.
  rewrite (pow2_nonpos (- px + - py)) by lia.
  rewrite (pow2_nonneg (- (- px + - py))) by lia.
  rewrite Z.mul_1_r. f_equal.
  rewrite <- Z.pow_add_r by lia. f_equal; ring.
Qed.

Lemma pow2_even p : 1 < 2 ^ p -> 0 <= p -> 2 ^ p = 2 * 2 ^ (p - 1).
Proof.
  intros H Hp. assert (p <> 0) by (intros ->; simpl in H; lia).
  rewrite <- Z.pow_succ_r by lia. f_equal; ring.
Qed.

Lemma of_int_100 : of_int 100 = mk (100 * 2 ^ 46) (- (46)).
Proof. reflexivity. Qed.

Lemma div_between a b q : 0 < b -> b * q <= a < b * (q + 1) -> a / b = q.
Proof.
  intros Hb H. symmetry. apply (Z.div_unique a b q (a - b * q)); lia.
Qed.

(** Below [2^53] bytes the division by [2^20] is exact, so [:.2f]
    rounds the true quotient. *)
Lemma megabytes_exact total :
  0 <= total < 2 ^ 53 ->
  hundredths (int_truediv total (1024 * 1024)) = rne (100 * total) 1048576.
Proof.
  intros [H0 Hlt].
  destruct (Z.eq_dec total 0) as [-> | Hnz]; [reflexivity|].
  unfold int_truediv. change (1024 * 1024) with (2 ^ 20).
  change 1048576 with (2 ^ 20).
  destruct (round_ratio_small total (2 ^ 20)) as [p [Hp [E [L U]]]]; try lia.
  rewrite E, hundredths_small by lia.
  assert (Hp20 : 20 <= p).
  { destruct (Z.le_gt_cases 20 p) as [Hc | Hc]; [exact Hc | exfalso].
    assert (2 ^ p <= 2 ^ 19) by (apply Z.pow_le_mono_r; lia).
    assert (total * 2 ^ p <= total * 2 ^ 19) by (apply Z.mul_le_mono_nonneg_l; lia).
    change (2 ^ 20 * 2 ^ 52) with (2 ^ 53 * 2 ^ 19) in L. lia. }
  assert (Hsplit : 2 ^ p = 2 ^ 20 * 2 ^ (p - 20)).
  { rewrite <- Z.pow_add_r by lia. f_equal; ring. }
  assert (Hq : 0 < 2 ^ (p - 20)) by (apply Z.pow_pos_nonneg; lia).
  set (Q := 2 ^ (p - 20)) in *.
  rewrite Hsplit.
  replace (total * (2 ^ 20 * Q)) with (2 ^ 20 * (total * Q)) by ring.
  rewrite rne_exact by lia.
  replace (100 * (total * Q)) with (Q * (100 * total)) by ring.
  replace (2 ^ 20 * Q) with (Q * 2 ^ 20) by ring.
  apply rne_scale; lia.
Qed.

Lemma zrange_forallb f a n x :
  forallb f (zrange a n) = true -> a <= x < a + Z.of_nat n -> f x = true.
Proof.
  intros Hall Hx. rewrite forallb_forall in Hall. apply Hall.
  unfold zrange. apply in_map_iff. exists (Z.to_nat (x - a)). split; [lia|].
  apply in_seq. lia.
Qed.

Lemma grid_all s p1 p2 :
  0 <= s < 66 -> 11 <= p1 <= 15 -> 5 <= p2 <= 8 -> grid_ok s p1 p2 = true.
Proof.
  intros Hs Hp1 Hp2.
  assert (Hall : forallb (fun p1 => forallb (fun p2 =>
            forallb (fun s => grid_ok s p1 p2) (zrange 0 66)) (zrange 5 4))
            (zrange 11 5) = true) by (vm_compute; reflexivity).
  apply (zrange_forallb _ 11 5 p1) in Hall; [|lia].
  apply (zrange_forallb _ 5 4 p2) in Hall; [|lia].
  apply (zrange_forallb _ 0 66 s) in Hall; [exact Hall | lia].
Qed.

Lemma rne_add_even d k n :
  0 < d -> Z.even k = true -> rne (d * k + n) d = k + rne n d.
Proof.
  intros Hd Hk. unfold rne.
  replace (d * k + n) with (n + k * d) by ring.
  rewrite Z.div_add, Z_mod_plus_full by lia.
  destruct (2 * (n mod d) ?= d); try lia.
  rewrite Z.even_add, Hk.
  destruct (Z.even (n / d)); simpl; lia.
Qed.

Lemma even_pow2_mul a p : 1 <= p -> Z.even (a * 2 ^ p) = true.
Proof.
  intros Hp. rewrite Z.even_mul, Z.even_pow by lia. apply orb_true_r.
Qed.

End FloatFacts.

(** ** Running computations *)

Module PyFacts.
Import PyStr FS Py.
Local Open Scope py_scope.

Lemma after_nil w : after w [] = w.
Proof. destruct w; unfold after; simpl. now rewrite app_nil_r. Qed.

Lemma after_after w o1 o2 : after (after w o1) o2 = after w (o1 ++ o2).
Proof. unfold after; simpl. now rewrite app_assoc. Qed.

Lemma fs_after w o : fs (after w o) = fs w.
Proof. reflexivity. Qed.

Lemma stdout_after w o : stdout (after w o) = stdout w ++ o.
Proof. reflexivity. Qed.

Section Returns.
Context {A B : Type}.

Lemma returns_ret (a : A) w : returns (ret a) w a [].
Proof. unfold returns, ret. now rewrite after_nil. Qed.

Lemma returns_bind (m : M A) (k : A -> M B) w a o1 b o2 :
  returns m w a o1 ->
  returns (k a) (after w o1) b o2 ->
  returns (bind m k) w b (o1 ++ o2).
Proof.
  unfold returns, bind. intros -> ->. now rewrite after_after.
Qed.

Lemma raises_bind (m : M A) (k : A -> M B) w e w' :
  m w = (Raise e, w') -> bind m k w = (Raise e, w').
Proof. unfold bind. now intros ->. Qed.

Lemma raises_after (m : M A) (k : A -> M B) w a o e w' :
  returns m w a o ->
  k a (after w o) = (Raise e, w') ->
  bind m k w = (Raise e, w').
Proof. unfold returns, bind. now intros -> ->. Qed.

End Returns.

Lemma returns_print s w : returns (print s) w tt [s].
Proof. reflexivity. Qed.

Lemma returns_stat_node p w :
  returns (stat_node p) w (resolve (fs w) p) [].
Proof. unfold returns, stat_node. now rewrite after_nil. Qed.

Lemma returns_datetime_now w : returns datetime_now w (clock w) [].
Proof. unfold returns, datetime_now. now rewrite after_nil. Qed.

Lemma returns_exists p w : returns (exists_ p) w (exists_at (fs w) p) [].
Proof.
  unfold exists_. change [] with (@nil str ++ []).
  eapply returns_bind; [apply returns_stat_node | apply returns_ret].
Qed.

Lemma returns_is_dir p w : returns (is_dir p) w (is_dir_at (fs w) p) [].
Proof.
  unfold is_dir. change [] with (@nil str ++ []).
  eapply returns_bind; [apply returns_stat_node | apply returns_ret].
Qed.

Lemma returns_is_file p w : returns (is_file p) w (is_file_at (fs w) p) [].
Proof.
  unfold is_file. change [] with (@nil str ++ []).
  eapply returns_bind; [apply returns_stat_node | apply returns_ret].
Qed.

End PyFacts.

(** ** Lists and loops *)

Module LoopFacts.
Import PyStr FS Py PyFacts.
Local Open Scope py_scope.

Lemma eqb_eq a b : eqb a b = true <-> a = b.
Proof.
  revert b. induction a as [|x a IH]; intros [|y b]; simpl;
    try (split; congruence).
  rewrite andb_true_iff, N.eqb_eq, IH. split.
  - now intros [-> ->].
  - intros H; inversion H; auto.
Qed.

Lemma eqb_refl a : eqb a a = true.
Proof. now apply eqb_eq. Qed.

Lemma eqb_neq a b : a <> b -> eqb a b = false.
Proof.
  intros H. destruct (eqb a b) eqn:E; [|reflexivity].
  now apply eqb_eq in E.
Qed.

Lemma member_in x l : member x l = true <-> In x l.
Proof.
  induction l as [|y l IH]; simpl; [split; [discriminate | tauto]|].
  rewrite orb_true_iff, eqb_eq, IH. split; intros [H | H]; auto.
Qed.

Lemma distinct_nodup l : distinct l = true -> NoDup l.
Proof.
  induction l as [|x l IH]; simpl; [constructor|].
  rewrite andb_true_iff, negb_true_iff. intros [Hx Hl].
  constructor; [|now apply IH].
  intros Hin. apply member_in in Hin. congruence.
Qed.

Lemma returns_filterM {A} (f : A -> M bool) (g : option node -> A -> bool) l w :
  (forall x w', returns (f x) w' (g (fs w') x) []) ->
  returns (filterM f l) w (filter (g (fs w)) l) [].
Proof.
  intros Hf. induction l as [|x l IH]; simpl.
  - apply returns_ret.
  - change [] with (@nil str ++ ([] ++ [])).
    eapply returns_bind; [apply Hf|].
    eapply returns_bind; [rewrite after_nil; apply IH|].
    rewrite !after_nil. destruct (g (fs w) x); apply returns_ret.
Qed.

Lemma returns_foldM {A S} (body : S -> A -> M S)
      (step : option node -> S -> A -> S) l acc w :
  (forall s x w', returns (body s x) w' (step (fs w') s x) []) ->
  returns (foldM body l acc) w (fold_left (step (fs w)) l acc) [].
Proof.
  intros Hb. revert acc. induction l as [|x l IH]; intros acc; simpl.
  - apply returns_ret.
  - change [] with (@nil str ++ []).
    eapply returns_bind; [apply Hb|]. rewrite after_nil. apply IH.
Qed.

Lemma returns_for_each {A} (body : A -> M unit) (out : A -> list str) l w :
  (forall x w', returns (body x) w' tt (out x)) ->
  returns (for_each l body) w tt (flat_map out l).
Proof.
  intros Hb. revert w. induction l as [|x l IH]; intros w; simpl.
  - apply returns_ret.
  - eapply returns_bind; [apply Hb | apply IH].
Qed.

Lemma returns_for_each_fs {A} (body : A -> M unit)
      (out : option node -> A -> list str) l w :
  (forall x w', returns (body x) w' tt (out (fs w') x)) ->
  returns (for_each l body) w tt (flat_map (out (fs w)) l).
Proof.
  intros Hb. revert w. induction l as [|x l IH]; intros w; simpl.
  - apply returns_ret.
  - eapply returns_bind; [apply Hb | apply (IH (after w _))].
Qed.

Lemma flat_map_singleton {A B} (f : A -> B) l :
  flat_map (fun x => [f x]) l = map f l.
Proof. induction l; simpl; congruence. Qed.

Lemma filter_map_fst {A B} (g : A -> bool) (es : list (A * B)) :
  filter g (map fst es) = map fst (filter (fun e => g (fst e)) es).
Proof.
  induction es as [|e es IH]; simpl; [reflexivity|].
  destruct (g (fst e)); simpl; now rewrite IH.
Qed.

Lemma find_entry_in es name n :
  NoDup (names es) -> In (name, n) es -> find_entry name es = Some n.
Proof.
  induction es as [|[name' n'] es IH]; simpl; [tauto|].
  intros Hnd [Heq | Hin].
  - inversion Heq; subst. now rewrite eqb_refl.
  - inversion Hnd as [|? ? Hnotin Hnd']; subst.
    rewrite eqb_neq.
    + now apply IH.
    + intros ->. apply Hnotin. unfold names.
      change name with (fst (name, n)). now apply in_map.
Qed.

End LoopFacts.

(** ** check-test-progress.py: what a run prints *)

Module CheckTestProgressFacts.
Import PyStr FS Py PyFacts LoopFacts CheckTestProgress.
Local Open Scope py_scope.

Lemma returns_eq {A} (m : M A) w a o o' :
  returns m w a o -> o = o' -> returns m w a o'.
Proof. now intros H <-. Qed.

Ltac step :=
  first [ apply returns_print | apply returns_exists
        | apply returns_is_dir | apply returns_is_file
        | apply returns_datetime_now | apply returns_stat_node
        | apply returns_ret ].

Ltac run := repeat (eapply returns_bind; [step|]; cbv beta); try step.

Lemma returns_compare count w :
  returns (compare_with_checkpoint count) w tt (comparison count).
Proof.
  unfold compare_with_checkpoint, comparison, CHECKPOINT_COUNT, TOTAL_TESTS.
  destruct (count >? 40).
  - eapply returns_eq; [run | reflexivity].
  - destruct (count =? 40); apply returns_print.
Qed.

Lemma collect_all t es es' acc :
  NoDup (names es) -> incl es' es ->
  fold_left (collect (Some (Dir t es))) (names es') acc = acc ++ subdirs es'.
Proof.
  intros Hnd. revert acc.
  induction es' as [|[name n] es' IH]; intros acc Hincl; simpl.
  - now rewrite app_nil_r.
  - rewrite IH by (intros e He; apply Hincl; now right).
    unfold collect. simpl.
    rewrite (find_entry_in es name n Hnd) by (apply Hincl; now left).
    unfold subdirs. simpl. destruct n; simpl.
    + reflexivity.
    + now rewrite <- app_assoc.
Qed.

Lemma kept_all t es es' :
  NoDup (names es) -> incl es' es ->
  filter (fun d => is_dir_at (Some (Dir t es)) (join results_dir d)) (names es')
  = map fst (subdirs es').
Proof.
  intros Hnd Hincl. unfold names. rewrite filter_map_fst.
  unfold subdirs. rewrite map_map. simpl.
  f_equal. apply filter_ext_in. intros [name n] Hin.
  unfold is_dir_at. simpl.
  now rewrite (find_entry_in es name n Hnd) by (now apply Hincl).
Qed.

Section Script.
Variable pf : platform.

Lemma returns_most_recent t es w :
  fs w = Some (Dir t es) -> NoDup (names es) ->
  returns (most_recent pf) w tt (recent_lines pf (shown es)).
Proof.
  intros Hfs Hnd. unfold most_recent, listdir.
  eapply returns_eq.
  - eapply returns_bind.
    { eapply returns_bind; [step|]. cbv beta. rewrite Hfs. simpl. step. }
    eapply returns_bind.
    { apply returns_foldM with (step := collect).
      intros s d w'. unfold collect. generalize (join results_dir d) as p. intro p.
      unfold returns, bind, is_dir, getmtime, stat_node, ret, raise.
      cbv beta iota.
      destruct (resolve (fs w') p) as [[|]|] eqn:E;
        simpl; rewrite ?E; simpl; unfold bind; rewrite ?E; now rewrite after_nil. }
    simpl. rewrite Hfs, (collect_all t es es [] Hnd) by apply incl_refl.
    apply returns_for_each with
      (out := fun ie => [recent_line pf (fst ie) (snd ie)]).
    intros [i [name mtime]] w'. apply returns_print.
  - simpl. unfold recent_lines. apply flat_map_singleton.
Qed.


Lemma main_not_a_directory size t w :
  fs w = Some (File size t) ->
  main pf w = (Raise NotADirectoryError, after w (banner pf (clock w))).
Proof.
  intros Hfs. unfold main.
  eapply raises_after; [step|]. cbv beta.
  eapply raises_after; [step|].
  eapply raises_after; [step|].
  eapply raises_after; [step|].
  eapply raises_after; [step|]. cbv beta.
  unfold exists_at. simpl. rewrite Hfs. simpl.
  rewrite !after_after. simpl.
  apply raises_bind. apply raises_bind.
  unfold listdir. eapply raises_after; [step|].
  simpl. rewrite Hfs. simpl. unfold raise. now rewrite after_nil.
Qed.

Lemma main_directory t es w :
  fs w = Some (Dir t es) -> NoDup (names es) ->
  returns (main pf) w tt (report pf (clock w) es).
Proof.
  intros Hfs Hnd. unfold main. eapply returns_eq.
  - run. unfold exists_at. simpl. rewrite Hfs. simpl.
    eapply returns_bind.
    { eapply returns_bind.
      { unfold listdir. eapply returns_bind; [step|]. simpl. rewrite Hfs. step. }
      eapply returns_bind.
      { apply returns_filterM with
          (g := fun root d => is_dir_at root (join results_dir d)).
        intros; apply returns_is_dir. }
      simpl. rewrite Hfs, (kept_all t es es Hnd) by apply incl_refl.
      run.
      eapply returns_bind; [apply returns_compare|].
      run. now apply (returns_most_recent t es). }
    step.
  - unfold report, len. rewrite !length_map, <- !app_assoc. reflexivity.
Qed.

End Script.

End CheckTestProgressFacts.

(** ** Sorting most recent first *)

Module SortFacts.
Import Py.

Section Sort.
Context {A : Type} (key : A -> Z).

Lemma insert_desc_perm x l : Permutation (insert_desc key x l) (x :: l).
Proof.
  induction l as [|y l IH]; simpl; [reflexivity|].
  destruct (key x <? key y); [|reflexivity].
  rewrite IH. apply perm_swap.
Qed.

Lemma sort_reverse_perm l : Permutation (sort_reverse key l) l.
Proof.
  induction l as [|x l IH]; simpl; [reflexivity|].
  rewrite insert_desc_perm. now constructor.
Qed.

Lemma insert_desc_sorted x l :
  StronglySorted (newer_or_same key) l ->
  StronglySorted (newer_or_same key) (insert_desc key x l).
Proof.
  induction 1 as [|y l Hs IH Hall]; simpl.
  - repeat constructor.
  - destruct (key x <? key y) eqn:E.
    + apply Z.ltb_lt in E. constructor; [exact IH|].
      rewrite (Forall_forall (newer_or_same key y)). intros z Hz.
      apply (Permutation_in _ (insert_desc_perm x l)) in Hz.
      destruct Hz as [<- | Hz].
      * unfold newer_or_same. lia.
      * now apply (proj1 (Forall_forall _ _) Hall).
    + apply Z.ltb_ge in E. constructor; [now constructor|].
      constructor; [exact E|].
      eapply Forall_impl; [|exact Hall].
      unfold newer_or_same. intros; lia.
Qed.

Lemma sort_reverse_sorted l : StronglySorted (newer_or_same key) (sort_reverse key l).
Proof.
  induction l; simpl; [constructor | now apply insert_desc_sorted].
Qed.



Lemma in_firstn k (l : list A) x : In x (firstn k l) -> In x l.
Proof.
  revert k. induction l as [|y l IH]; intros [|k]; simpl; try tauto.
  intros [H | H]; [now left | right; eauto].
Qed.

Lemma firstn_sorted (R : A -> A -> Prop) k l :
  StronglySorted R l -> StronglySorted R (firstn k l).
Proof.
  intros Hs. revert k. induction Hs as [|x l Hs IH Hall]; intros [|k]; simpl;
    try constructor.
  - apply IH.
  - rewrite Forall_forall in *. intros y Hy. apply Hall.
    eapply in_firstn; exact Hy.
Qed.

End Sort.

End SortFacts.

(** ** The progress reporter *)

Module ProgressReporter.
Import PyStr FS Py PyFacts LoopFacts SortFacts.
Import CheckTestProgress CheckTestProgressFacts Samples.
Import Float FloatFacts.

Lemma names_nodup_sample : NoDup (names sample_results).
Proof.
  repeat constructor; simpl; intuition discriminate.
Qed.

Lemma len_subdirs es :
  len (subdirs es)
  = Z.of_nat (List.length (filter (fun e => is_dir_node (snd e)) es)).
Proof. unfold len, subdirs. now rewrite length_map. Qed.

(** Below [2^44] the two roundings cannot carry the product across an
    integer: [100 * N / 66] is either an integer, and then both
    operations are exact, or at least [1/33] away from one. *)
Lemma percent_floor N : 0 <= N < 2 ^ 44 -> percent N = 100 * N / 66.
Proof.
  intros [H0 HN].
  destruct (Z.eq_dec N 0) as [-> | Hnz]; [reflexivity|].
  unfold percent, int_truediv, TOTAL_TESTS.
  destruct (round_ratio_small N 66) as [p1 [Hp1 [E1 [L1 U1]]]]; try lia.
  rewrite E1, of_int_100, mul_small by lia.
  set (P1 := 2 ^ p1) in *.
  assert (HP1 : 66 * 2 ^ 8 < P1).
  { change (2 ^ 52) with (2 ^ 44 * 2 ^ 8) in L1. nia. }
  pose proof (rne_bounds (N * P1) 66 ltac:(lia)) as Hm1.
  set (m1 := rne (N * P1) 66) in *.
  assert (Hm1pos : 0 < m1) by lia.
  assert (HNP : N * P1 <= (2 ^ 44 - 1) * P1)
    by (apply Z.mul_le_mono_nonneg_r; lia).
  destruct (round_ratio_small (m1 * (100 * 2 ^ 46)) (P1 * 2 ^ 46))
    as [p2 [Hp2 [E2 [L2 U2]]]]; [lia | lia | lia |].
  rewrite E2, to_int_small by lia.
  set (P2 := 2 ^ p2) in *.
  replace (m1 * (100 * 2 ^ 46) * P2) with (2 ^ 46 * (100 * m1 * P2)) in * by ring.
  replace (P1 * 2 ^ 46) with (2 ^ 46 * P1) in * by ring.
  rewrite rne_scale by lia.
  assert (L2' : P1 * 2 ^ 52 <= 100 * m1 * P2) by nia.
  clear L2 U2 E1 E2.
  assert (HP2 : 169 <= P2).
  { assert (HP2pos : 0 < P2) by (apply Z.pow_pos_nonneg; lia).
    destruct (Z.le_gt_cases 169 P2) as [Hc | Hc]; [exact Hc | exfalso].
    assert (H1 : 2 * (66 * m1) * P2 <= (2 * (N * P1) + 66) * P2)
      by (apply Z.mul_le_mono_nonneg_r; lia).
    assert (H2 : N * P1 * P2 <= (2 ^ 44 - 1) * P1 * P2)
      by (apply Z.mul_le_mono_nonneg_r; lia).
    assert (H3 : P1 * P2 <= P1 * 168)
      by (apply Z.mul_le_mono_nonneg_l; lia).
    assert (H4 : P2 <= 168) by lia.
    lia. }
  pose proof (Z.div_mod (100 * N) 66 ltac:(lia)) as Hdm.
  pose proof (Z.mod_pos_bound (100 * N) 66 ltac:(lia)) as HR.
  assert (Heven : (100 * N) mod 66 = 2 * ((50 * N) mod 33)).
  { replace (100 * N) with (2 * (50 * N)) by ring.
    change 66 with (2 * 33). now rewrite Z.mul_mod_distr_l by lia. }
  set (F := 100 * N / 66) in *. set (R := (100 * N) mod 66) in *.
  destruct (Z.eq_dec R 0) as [HR0 | HR0].
  - (* the quotient is an integer *)
    assert (Hdiv : (33 | N)).
    { apply (Z.gauss 33 50 N); [|reflexivity].
      apply Z.mod_divide; lia. }
    destruct Hdiv as [k Hk].
    assert (HH : P1 = 2 * 2 ^ (p1 - 1)) by (apply pow2_even; lia).
    set (Q1 := 2 ^ (p1 - 1)) in *.
    assert (Em1 : m1 = k * Q1).
    { unfold m1. rewrite HH, Hk.
      replace (k * 33 * (2 * Q1)) with (66 * (k * Q1)) by ring.
      apply rne_exact; lia. }
    rewrite Em1, HH.
    replace (100 * (k * Q1) * P2) with (Q1 * (2 * (50 * k * P2))) by ring.
    replace (2 * Q1) with (Q1 * 2) by ring.
    rewrite rne_scale, rne_exact by lia.
    rewrite Z.div_mul by lia. lia.
  - (* the quotient is at least 1/33 away from an integer *)
    pose proof (rne_bounds (100 * m1 * P2) P1 ltac:(lia)) as Hm2.
    set (m2 := rne (100 * m1 * P2) P1) in *.
    apply div_between; [lia|].
    assert (HG0 : 0 < P1 * P2) by (apply Z.mul_pos_pos; lia).
    assert (HG : 6600 * P2 + 66 * P1 < 4 * (P1 * P2)).
    { assert (16896 * P2 <= P1 * P2) by (apply Z.mul_le_mono_nonneg_r; lia).
      assert (P1 * 169 <= P1 * P2) by (apply Z.mul_le_mono_nonneg_l; lia).
      lia. }
    assert (Hlo : (2 * (N * P1) - 66) * P2 <= 2 * (66 * m1) * P2)
      by (apply Z.mul_le_mono_nonneg_r; lia).
    assert (Hhi : 2 * (66 * m1) * P2 <= (2 * (N * P1) + 66) * P2)
      by (apply Z.mul_le_mono_nonneg_r; lia).
    assert (HF : 100 * N * (P1 * P2) = (66 * F + R) * (P1 * P2))
      by (now rewrite Hdm).
    assert (HR2 : 2 * (P1 * P2) <= R * (P1 * P2) <= 64 * (P1 * P2))
      by (split; apply Z.mul_le_mono_nonneg_r; lia).
    split.
    + apply (Z.mul_le_mono_pos_l _ _ P1); lia.
    + apply (Z.mul_lt_mono_pos_l P1); lia.
Qed.

(** Between 2^44 and the top of the range the result still depends on
    the count only through its remainder modulo 66 and the two
    exponents, which leaves finitely many cases. *)
Lemma percent_floor_mid N :
  2 ^ 44 <= N < 185773484629000 -> percent N = 100 * N / 66.
Proof.
  intros [Hlo Hhi]. change (2 ^ 44) with 17592186044416 in Hlo.
  unfold percent, int_truediv, TOTAL_TESTS.
  destruct (round_ratio_small N 66) as [p1 [Hp1 [E1 [L1 U1]]]]; try lia.
  rewrite E1, of_int_100, mul_small by lia.
  assert (Hp1r : 11 <= p1 <= 15).
  { split.
    - destruct (Z.le_gt_cases 11 p1) as [Hc | Hc]; [exact Hc | exfalso].
      assert (2 ^ p1 <= 2 ^ 10) by (apply Z.pow_le_mono_r; lia).
      assert (N * 2 ^ p1 <= N * 2 ^ 10) by (apply Z.mul_le_mono_nonneg_l; lia).
      change (2 ^ 10) with 1024 in *. change (2 ^ 52) with 4503599627370496 in *.
      lia.
    - destruct (Z.le_gt_cases p1 15) as [Hc | Hc]; [exact Hc | exfalso].
      assert (2 ^ 16 <= 2 ^ p1) by (apply Z.pow_le_mono_r; lia).
      assert (N * 2 ^ 16 <= N * 2 ^ p1) by (apply Z.mul_le_mono_nonneg_l; lia).
      change (2 ^ 16) with 65536 in *. change (2 ^ 53) with 9007199254740992 in *.
      lia. }
  assert (HP1 : 2048 <= 2 ^ p1) by (change 2048 with (2 ^ 11); apply Z.pow_le_mono_r; lia).
  set (P1 := 2 ^ p1) in *.
  pose proof (rne_bounds (N * P1) 66 ltac:(lia)) as Hm1.
  set (m1 := rne (N * P1) 66) in *.
  change (2 ^ 52) with 4503599627370496 in *.
  change (2 ^ 53) with 9007199254740992 in *.
  assert (Hm1pos : 0 < m1) by lia.
  assert (HNP : N * P1 <= 185773484628999 * P1)
    by (apply Z.mul_le_mono_nonneg_r; lia).
  assert (HNP' : 17592186044416 * P1 <= N * P1)
    by (apply Z.mul_le_mono_nonneg_r; lia).
  destruct (round_ratio_small (m1 * (100 * 2 ^ 46)) (P1 * 2 ^ 46))
    as [p2 [Hp2 [E2 [L2 U2]]]].
  1-3: change (2 ^ 46) with 70368744177664; change (2 ^ 53) with 9007199254740992; lia.
  rewrite E2, to_int_small by lia.
  assert (HP2pos : 0 < 2 ^ p2) by (apply Z.pow_pos_nonneg; lia).
  set (P2 := 2 ^ p2) in *.
  replace (m1 * (100 * 2 ^ 46) * P2) with (2 ^ 46 * (100 * m1 * P2)) in * by ring.
  replace (P1 * 2 ^ 46) with (2 ^ 46 * P1) in * by ring.
  rewrite rne_scale by lia.
  change (2 ^ 46) with 70368744177664 in *.
  change (2 ^ 52) with 4503599627370496 in *.
  change (2 ^ 53) with 9007199254740992 in *.
  assert (H1 : (2 * (N * P1) - 66) * P2 <= 2 * (66 * m1) * P2)
    by (apply Z.mul_le_mono_nonneg_r; lia).
  assert (H2 : 2 * (66 * m1) * P2 <= (2 * (N * P1) + 66) * P2)
    by (apply Z.mul_le_mono_nonneg_r; lia).
  assert (H3 : N * P1 * P2 <= 185773484628999 * P1 * P2)
    by (apply Z.mul_le_mono_nonneg_r; lia).
  assert (H4 : 17592186044416 * P1 * P2 <= N * P1 * P2)
    by (apply Z.mul_le_mono_nonneg_r; lia).
  assert (Hp2r : 5 <= p2 <= 8).
  { split.
    - destruct (Z.le_gt_cases 5 p2) as [Hc | Hc]; [exact Hc | exfalso].
      assert (H5 : P2 <= 2 ^ 4) by (apply Z.pow_le_mono_r; lia).
      change (2 ^ 4) with 16 in H5.
      assert (H6 : P1 * P2 <= P1 * 16) by (apply Z.mul_le_mono_nonneg_l; lia).
      assert (H7 : m1 * P2 <= m1 * 16) by (apply Z.mul_le_mono_nonneg_l; lia).
      lia.
    - destruct (Z.le_gt_cases p2 8) as [Hc | Hc]; [exact Hc | exfalso].
      assert (H5 : 2 ^ 9 <= P2) by (apply Z.pow_le_mono_r; lia).
      change (2 ^ 9) with 512 in H5.
      assert (H6 : P1 * 512 <= P1 * P2) by (apply Z.mul_le_mono_nonneg_l; lia).
      assert (H7 : m1 * 512 <= m1 * P2) by (apply Z.mul_le_mono_nonneg_l; lia).
      lia. }
  pose proof (grid_all (N mod 66) p1 p2
                (Z.mod_pos_bound N 66 ltac:(lia)) Hp1r Hp2r) as Hgrid.
  unfold grid_ok in Hgrid. apply Z.eqb_eq in Hgrid. fold P1 P2 in Hgrid.
  pose proof (Z.div_mod N 66 ltac:(lia)) as Hdm.
  set (q := N / 66) in *. set (s := N mod 66) in *.
  unfold m1. rewrite Hdm.
  replace ((66 * q + s) * P1) with (66 * (q * P1) + s * P1) by ring.
  rewrite rne_add_even by (try lia; apply even_pow2_mul; lia).
  replace (100 * (q * P1 + rne (s * P1) 66) * P2)
    with (P1 * (100 * q * P2) + 100 * rne (s * P1) 66 * P2) by ring.
  rewrite rne_add_even by (try lia; apply even_pow2_mul; lia).
  replace (100 * q * P2 + rne (100 * rne (s * P1) 66 * P2) P1)
    with (rne (100 * rne (s * P1) 66 * P2) P1 + (100 * q) * P2) by ring.
  rewrite Z.div_add by lia. rewrite Hgrid.
  replace (100 * (66 * q + s)) with (100 * s + (100 * q) * 66) by ring.
  rewrite Z.div_add by lia. reflexivity.
Qed.

Lemma percent_floor_top N :
  185773484629000 <= N < 185773484629060 -> percent N = 100 * N / 66.
Proof.
  intros HN.
  assert (Hall : forallb (fun N => percent N =? 100 * N / 66)
                   (zrange 185773484629000 60) = true) by (vm_compute; reflexivity).
  apply (zrange_forallb _ _ _ N) in Hall; [|lia].
  now apply Z.eqb_eq in Hall.
Qed.

(** The floor is exact for every count below 185773484629060. *)
Lemma percent_floor_tight N :
  0 <= N < 185773484629060 -> percent N = 100 * N / 66.
Proof.
  intros [H0 HN].
  destruct (Z.lt_ge_cases N (2 ^ 44)) as [Hs | Hs];
    [apply percent_floor; lia|].
  destruct (Z.lt_ge_cases N 185773484629000) as [Hm | Hm].
  - apply percent_floor_mid; lia.
  - apply percent_floor_top; lia.
Qed.

(** At 185773484629060 the product reaches 2^48, where doubles are
    1/16 apart, and the two roundings carry it past the next integer:
    the bound above is the best possible. *)
Lemma percent_first_divergence :
  percent 185773484629060 = 100 * 185773484629060 / 66 + 1.
Proof. vm_compute. reflexivity. Qed.

(** C3. When the results directory holds N immediate subdirectories
    and M other immediate entries, the run prints, right after the
    banner, the line "Tests Completed: N/66 (p%)": the figure is N
    whatever M is and whatever the subdirectories contain. *)
Theorem count_accuracy pf w t es (N M : nat) :
  fs w = Some (Dir t es) ->
  NoDup (names es) ->
  List.length (filter (fun e => is_dir_node (snd e)) es) = N ->
  List.length (others es) = M ->
  exists rest,
    returns (main pf) w tt
      (banner pf (clock w)
       ++ completed_line (Z.of_nat N) (percent (Z.of_nat N)) :: rest).
Proof.
  intros Hfs Hnd HN _.
  pose proof (main_directory pf t es w Hfs Hnd) as Hrun.
  unfold report in Hrun. rewrite len_subdirs, HN in Hrun.
  eexists. exact Hrun.
Qed.

Lemma count_accuracy_witness :
  exists rest,
    returns (main sample_platform) results_world tt
      (banner sample_platform 1000 ++ completed_line 2 (percent 2) :: rest).
Proof.
  apply (count_accuracy sample_platform results_world 50 sample_results 2 1).
  - reflexivity.
  - exact names_nodup_sample.
  - reflexivity.
  - reflexivity.
Defined.

Lemma no_remaining_recent pf l :
  existsb is_remaining_line (recent_lines pf (firstn 5 l)) = false.
Proof. destruct l as [|a [|b [|c [|d [|e l]]]]]; reflexivity. Qed.

Lemma remaining_in_comparison count :
  existsb is_remaining_line (comparison count) = true <-> count > 40.
Proof.
  unfold comparison. destruct (count >? 40) eqn:E.
  - apply Z.gtb_gt in E. simpl. split; [intros _; exact E | reflexivity].
  - assert (~ count > 40) by (rewrite Z.gtb_ltb in E; apply Z.ltb_ge in E; lia).
    destruct (count =? 40); simpl; split; (discriminate || tauto).
Qed.

(** C2. With N subdirectories in the results directory, the lines
    printed between the checkpoint summary and the recent-results
    heading are: for N > 40 the progress line with N - 40 followed by
    the remaining line with 66 - N; for N = 40 the no-progress line;
    for N < 40 the unexpected-decrease line.  A remaining line occurs
    in the whole output exactly when N > 40. *)
Theorem checkpoint_trichotomy pf w t es :
  fs w = Some (Dir t es) ->
  NoDup (names es) ->
  let N := len (subdirs es) in
  exists mid,
    let out :=
      banner pf (clock w)
      ++ [completed_line N (percent N); checkpoint_line; times "-" 60]
      ++ mid ++ recent_header ++ recent_lines pf (shown es) ++ [footer] in
    returns (main pf) w tt out /\
    (N > 40 -> mid = [progress_line (N - 40); remaining_line (66 - N)]) /\
    (N = 40 -> mid = [stalled_line]) /\
    (N < 40 -> mid = [decreased_line]) /\
    (existsb is_remaining_line out = true <-> N > 40).
Proof.
  intros Hfs Hnd N. exists (comparison N). cbv zeta.
  split; [exact (main_directory pf t es w Hfs Hnd)|].
  repeat split.
  - intros H. unfold comparison. apply Z.gtb_gt in H. now rewrite H.
  - intros ->. reflexivity.
  - intros H. unfold comparison.
    replace (N >? 40) with false by (symmetry; rewrite Z.gtb_ltb; apply Z.ltb_ge; lia).
    replace (N =? 40) with false by (symmetry; apply Z.eqb_neq; lia).
    reflexivity.
  - rewrite !existsb_app. unfold shown. rewrite no_remaining_recent.
    change (existsb is_remaining_line (banner pf (clock w))) with false.
    change (existsb is_remaining_line
              [completed_line N (percent N); checkpoint_line; times "-" 60])
      with false.
    change (existsb is_remaining_line recent_header) with false.
    change (existsb is_remaining_line [footer]) with false.
    rewrite !orb_false_r. simpl. apply remaining_in_comparison.
  - intros H. rewrite !existsb_app.
    apply remaining_in_comparison in H. rewrite H.
    now rewrite !orb_true_r.
Qed.

Lemma checkpoint_trichotomy_witness :
  exists mid,
    returns (main sample_platform) results_world tt
      (banner sample_platform 1000
       ++ [completed_line 2 (percent 2); checkpoint_line; times "-" 60]
       ++ mid ++ recent_header
       ++ recent_lines sample_platform (shown sample_results) ++ [footer]) /\
    mid = [decreased_line].
Proof.
  destruct (checkpoint_trichotomy sample_platform results_world 50
              sample_results eq_refl names_nodup_sample)
    as [mid [Hrun [_ [_ [Hlt _]]]]].
  exists mid. split; [exact Hrun | apply Hlt; reflexivity].
Defined.

(** C4.  With N subdirectories the percentage the code computes is the
    floor of 100 * N / 66, and the tests-completed line shows it; 41
    gives 62.  The count is the length of a directory listing held in
    memory; the statement covers every count below 185773484629060,
    the first one at which binary64 rounding shows. *)
Theorem percentage_floor pf w t es :
  fs w = Some (Dir t es) ->
  NoDup (names es) ->
  len (subdirs es) < 185773484629060 ->
  let N := len (subdirs es) in
  percent N = 100 * N / 66 /\
  (exists rest,
     returns (main pf) w tt
       (banner pf (clock w) ++ completed_line N (100 * N / 66) :: rest)) /\
  percent 41 = 62.
Proof.
  intros Hfs Hnd Hlt N.
  assert (HN : percent N = 100 * N / 66).
  { apply percent_floor_tight. split; [apply Nat2Z.is_nonneg | exact Hlt]. }
  split; [exact HN|]. split; [|reflexivity].
  pose proof (main_directory pf t es w Hfs Hnd) as Hrun.
  unfold report in Hrun. fold N in Hrun. rewrite HN in Hrun.
  eexists. exact Hrun.
Qed.

Lemma percentage_floor_witness :
  percent 2 = 100 * 2 / 66 /\
  (exists rest,
     returns (main sample_platform) results_world tt
       (banner sample_platform 1000 ++ completed_line 2 (100 * 2 / 66) :: rest)) /\
  percent 41 = 62.
Proof.
  apply (percentage_floor sample_platform results_world 50 sample_results).
  - reflexivity.
  - exact names_nodup_sample.
  - reflexivity.
Defined.

Lemma names_nodup_crowded : NoDup (names crowded_results).
Proof. apply distinct_nodup. vm_compute. reflexivity. Qed.

(** C10.  With N subdirectories, N above 66, the run prints exactly
    the usual report: the percentage is the floor of 100 * N / 66 and
    exceeds 100, the progress line shows N - 40, the remaining line
    shows 66 - N, which is negative, and no other line is added.  As
    for C4, the statement covers every count below 185773484629060. *)
Theorem no_clamping pf w t es :
  fs w = Some (Dir t es) ->
  NoDup (names es) ->
  66 < len (subdirs es) < 185773484629060 ->
  let N := len (subdirs es) in
  returns (main pf) w tt
    (banner pf (clock w)
     ++ [completed_line N (100 * N / 66); checkpoint_line; times "-" 60]
     ++ [progress_line (N - 40); remaining_line (66 - N)]
     ++ recent_header ++ recent_lines pf (shown es) ++ [footer]) /\
  100 < 100 * N / 66 /\
  0 < N - 40 /\
  66 - N < 0.
Proof.
  intros Hfs Hnd [Hgt Hlt] N.
  assert (HN : percent N = 100 * N / 66).
  { apply percent_floor_tight. split; [apply Nat2Z.is_nonneg | exact Hlt]. }
  split; [|split; [|lia]].
  - pose proof (main_directory pf t es w Hfs Hnd) as Hrun.
    unfold report in Hrun. fold N in Hrun. rewrite HN in Hrun.
    unfold comparison in Hrun.
    replace (N >? 40) with true in Hrun
      by (symmetry; apply Z.gtb_gt; unfold N; lia).
    exact Hrun.
  - assert (101 <= 100 * N / 66)
      by (apply Z.div_le_lower_bound; unfold N; lia).
    lia.
Qed.

Lemma no_clamping_witness :
  returns (main sample_platform) crowded_world tt
    (banner sample_platform 1000
     ++ [completed_line 67 (100 * 67 / 66); checkpoint_line; times "-" 60]
     ++ [progress_line (67 - 40); remaining_line (66 - 67)]
     ++ recent_header
     ++ recent_lines sample_platform (shown crowded_results) ++ [footer]) /\
  100 < 100 * 67 / 66 /\
  0 < 67 - 40 /\
  66 - 67 < 0.
Proof.
  apply (no_clamping sample_platform crowded_world 99 crowded_results).
  - reflexivity.
  - exact names_nodup_crowded.
  - split; reflexivity.
Defined.

Lemma enumerate_nth {A} (l : list A) start i :
  nth_error (enumerate start l) i
  = option_map (fun x => (start + Z.of_nat i, x)) (nth_error l i).
Proof.
  revert start i. induction l as [|x l IH]; intros start [|i]; simpl;
    try reflexivity.
  - now rewrite Z.add_0_r.
  - rewrite IH. destruct (nth_error l i); simpl; [|reflexivity].
    do 2 f_equal. lia.
Qed.

Lemma enumerate_length {A} (l : list A) start :
  List.length (enumerate start l) = List.length l.
Proof. revert start. induction l; intros start; simpl; congruence. Qed.

(** The i-th line under the recent-results heading. *)
Lemma recent_lines_nth pf l i name mtime :
  nth_error l i = Some (name, mtime) ->
  nth_error (recent_lines pf l) i
  = Some (str_int (Z.of_nat i + 1) ++ lit ". [" ++ strftime_time pf mtime
          ++ lit "] " ++ firstn 70 name).
Proof.
  intros Hnth. unfold recent_lines.
  rewrite nth_error_map, enumerate_nth, Hnth. simpl.
  unfold recent_line. simpl. now rewrite Z.add_comm.
Qed.

Lemma recent_lines_length pf l :
  List.length (recent_lines pf l) = List.length l.
Proof. unfold recent_lines. now rewrite length_map, enumerate_length. Qed.

Lemma shown_nth es i :
  (i < 5)%nat ->
  nth_error (shown es) i = nth_error (sort_reverse snd (subdirs es)) i.
Proof.
  intros Hi. unfold shown. rewrite nth_error_firstn.
  now replace (i <? 5)%nat with true by (symmetry; apply Nat.ltb_lt; exact Hi).
Qed.

Lemma shown_length es :
  List.length (shown es) = Nat.min (List.length (subdirs es)) 5.
Proof.
  unfold shown.
  rewrite length_firstn, (Permutation_length (sort_reverse_perm snd _)).
  apply Nat.min_comm.
Qed.


Lemma names_nodup_busy : NoDup (names busy_results).
Proof. apply distinct_nodup. vm_compute. reflexivity. Qed.



End ProgressReporter.

(** ** count-projects.py: what a run prints *)

Module CountProjectsFacts.
Import PyStr FS Py PyFacts LoopFacts CheckTestProgressFacts CountProjects.
Local Open Scope py_scope.

Lemma returns_glob same p pat w :
  returns (glob same p pat) w (glob_at same (fs w) p pat) [].
Proof.
  unfold glob, glob_at. eapply returns_eq; [|apply app_nil_l].
  eapply returns_bind; [apply returns_stat_node|]. rewrite after_nil.
  destruct (resolve (fs w) p) as [[|]|]; apply returns_ret.
Qed.

Lemma returns_rglob_star p w :
  returns (rglob_star p) w (below_at (fs w) p) [].
Proof.
  unfold rglob_star, below_at. eapply returns_eq; [|apply app_nil_l].
  eapply returns_bind; [apply returns_stat_node|]. rewrite after_nil.
  destruct (resolve (fs w) p); apply returns_ret.
Qed.

Lemma returns_sum_sizes files w :
  returns (sum_sizes files) w (fold_left (add_size (fs w)) files 0) [].
Proof.
  unfold sum_sizes. apply returns_foldM with (step := add_size).
  intros total f w'. unfold add_size.
  unfold returns, bind, exists_, stat_st_size, stat_node, ret, raise.
  cbv beta iota.
  destruct (resolve (fs w') f) eqn:E; simpl; rewrite ?E; simpl;
    unfold bind; rewrite ?E; now rewrite after_nil.
Qed.

Ltac step' :=
  first [ apply returns_glob | apply returns_rglob_star
        | apply returns_sum_sizes | step ].

Ltac run' := repeat (eapply returns_bind; [step'|]; cbv beta); try step'.

Lemma returns_check_indexeddb w :
  returns check_indexeddb w tt (indexeddb_lines (fs w)).
Proof.
  unfold check_indexeddb, indexeddb_lines.
  destruct (exists_at (fs w) indexeddb_dir) eqn:E.
  - eapply returns_eq.
    + eapply returns_bind; [step'|]. cbv beta. rewrite E.
      eapply returns_bind; [step'|]. cbv beta.
      eapply returns_bind;
        [apply returns_filterM with (g := is_dir_at); intros; step'|].
      eapply returns_bind;
        [apply returns_filterM with (g := is_file_at); intros; step'|].
      cbv beta. run'.
    + reflexivity.
  - eapply returns_eq.
    + eapply returns_bind; [step'|]. cbv beta. rewrite E. step'.
    + reflexivity.
Qed.

Lemma returns_check_storage storage w :
  returns (check_storage storage) w tt (storage_lines (fs w) storage).
Proof.
  unfold check_storage, storage_lines.
  destruct (exists_at (fs w) (join qcut_dir storage)) eqn:E.
  - eapply returns_eq.
    + eapply returns_bind; [step'|]. cbv beta. rewrite E.
      eapply returns_bind; [step'|]. cbv beta.
      eapply returns_bind;
        [apply returns_filterM with (g := is_file_at); intros; step'|].
      cbv beta. step'.
    + reflexivity.
  - eapply returns_eq.
    + eapply returns_bind; [step'|]. cbv beta. rewrite E. step'.
    + reflexivity.
Qed.

Lemma returns_summary count w :
  returns (summary count) w tt (verdict (fs w) count).
Proof.
  unfold summary, verdict, and_then, clean_lines, partly_lines, has_data_lines.
  destruct (count =? 0); simpl;
    [destruct (exists_at (fs w) indexeddb_dir) eqn:E; simpl|].
  - eapply returns_eq.
    + eapply returns_bind.
      { eapply returns_bind; [step'|]. cbv beta. rewrite E. step'. }
      cbv beta. simpl negb. cbv iota.
      eapply returns_bind; [step'|]. cbv beta.
      change (fs (after w ([] ++ []))) with (fs w). rewrite E. run'.
    + reflexivity.
  - eapply returns_eq.
    + eapply returns_bind.
      { eapply returns_bind; [step'|]. cbv beta. rewrite E. step'. }
      cbv beta. simpl negb. cbv iota. step'.
    + reflexivity.
  - eapply returns_eq; [run'|reflexivity].
Qed.

Section Script.
Variable pf : platform.

Lemma returns_check_projects w :
  returns (check_projects pf) w (project_files_at (glob_same_char pf) (fs w))
    (projects_lines (glob_same_char pf) (fs w)).
Proof.
  unfold check_projects, projects_lines, project_files_at.
  destruct (exists_at (fs w) projects_folder) eqn:E.
  - eapply returns_eq.
    + eapply returns_bind; [step'|]. cbv beta. rewrite E. run'.
    + reflexivity.
  - eapply returns_eq.
    + eapply returns_bind; [step'|]. cbv beta. rewrite E. run'.
    + reflexivity.
Qed.


Lemma count_projects_existing root w :
  fs w = Some root ->
  returns (count_projects pf) w tt (report pf (fs w)).
Proof.
  intros Hfs. unfold count_projects. eapply returns_eq.
  - run'.
    assert (E : exists_at (fs w) qcut_dir = true) by (now rewrite Hfs).
    match goal with
    | |- context [exists_at (fs ?x) qcut_dir] => change (fs x) with (fs w)
    end.
    rewrite E. simpl negb. cbv iota.
    eapply returns_bind; [apply returns_check_projects|]. cbv beta.
    eapply returns_bind; [apply returns_check_indexeddb|].
    eapply returns_bind;
      [apply returns_for_each_fs with (out := storage_lines);
       intros; apply returns_check_storage|].
    run'.
    eapply returns_bind; [apply returns_summary|].
    run'.
  - unfold report. rewrite <- ?app_assoc. reflexivity.
Qed.

End Script.

End CountProjectsFacts.

(** ** Paths and the nodes they reach *)

Module FSFacts.
Import PyStr FS Py LoopFacts.

Lemma node_induction (P : node -> Prop) :
  (forall size t, P (File size t)) ->
  (forall t es, Forall (fun e => P (snd e)) es -> P (Dir t es)) ->
  forall n, P n.
Proof.
  intros Hfile Hdir.
  fix IH 1. intros [size t | t es].
  - apply Hfile.
  - apply Hdir. induction es as [|[name child] es IHes]; constructor.
    + apply IH.
    + exact IHes.
Qed.

Lemma wf_dir t es :
  wf (Dir t es) <-> NoDup (names es) /\ Forall (fun e => wf (snd e)) es.
Proof.
  simpl. apply and_iff_compat_l.
  induction es as [|[name child] es IH]; simpl.
  - split; [constructor | trivial].
  - rewrite IH. split.
    + intros [H1 H2]. now constructor.
    + intros H. inversion H; subst. now split.
Qed.

Lemma lookup_app n p q :
  lookup n (p ++ q)
  = match lookup n p with Some m => lookup m q | None => None end.
Proof.
  revert n. induction p as [|c p IH]; intros n; simpl; [reflexivity|].
  destruct n as [|t es]; [reflexivity|].
  destruct (find_entry c es); [apply IH | reflexivity].
Qed.

Lemma resolve_child root prefix t es name child :
  resolve root prefix = Some (Dir t es) ->
  NoDup (names es) -> In (name, child) es ->
  resolve root (join prefix name) = Some child.
Proof.
  intros Hres Hnd Hin. unfold resolve, join in *.
  destruct root as [r|]; [|discriminate].
  rewrite lookup_app, Hres. simpl.
  now rewrite (find_entry_in es name child Hnd Hin).
Qed.

(** In a well-formed tree every path that [rglob] lists reaches the
    node it was listed for. *)
Lemma descendants_reach n :
  wf n -> forall root prefix,
  resolve root prefix = Some n ->
  Forall2 (reaches root) (descendants prefix n) (nodes_under n).
Proof.
  induction n as [size t | t es IH] using node_induction;
    intros Hwf root prefix Hres; simpl; [constructor|].
  apply wf_dir in Hwf. destruct Hwf as [Hnd Hall].
  assert (Hsub : forall es', incl es' es ->
            Forall2 (reaches root)
              (map (fun e => join prefix (fst e)) es') (map snd es')).
  { induction es' as [|[name child] es' IH']; intros Hincl; simpl;
      constructor.
    - apply (resolve_child root prefix t es name child Hres Hnd).
      apply Hincl. now left.
    - apply IH'. intros e He. apply Hincl. now right. }
  apply Forall2_app; [apply Hsub, incl_refl|].
  assert (Hbelow : forall es', incl es' es ->
            Forall2 (reaches root)
              ((fix below (es : list (str * node)) : list path :=
                  match es with
                  | [] => []
                  | (name, child) :: es' =>
                      descendants (join prefix name) child ++ below es'
                  end) es')
              ((fix below (es : list (str * node)) : list node :=
                  match es with
                  | [] => []
                  | (_, child) :: es' => nodes_under child ++ below es'
                  end) es')).
  { induction es' as [|[name child] es' IH']; intros Hincl; [constructor|].
    apply Forall2_app.
    - assert (Hin : In (name, child) es) by (apply Hincl; now left).
      rewrite Forall_forall in IH, Hall.
      apply (IH (name, child) Hin).
      + apply (Hall (name, child) Hin).
      + apply (resolve_child root prefix t es name child Hres Hnd Hin).
    - apply IH'. intros e He. apply Hincl. now right. }
  apply Hbelow, incl_refl.
Qed.

Lemma reaches_filter root (f : path -> bool) (g : node -> bool) ps ns :
  (forall p n, reaches root p n -> f p = g n) ->
  Forall2 (reaches root) ps ns ->
  Forall2 (reaches root) (filter f ps) (filter g ns).
Proof.
  intros Hfg. induction 1 as [|p n ps ns Hpn _ IH]; simpl; [constructor|].
  rewrite (Hfg p n Hpn). destruct (g n); [now constructor | exact IH].
Qed.

Lemma reaches_is_file root p n : reaches root p n -> is_file_at root p = is_file_node n.
Proof. unfold reaches, is_file_at. now intros ->. Qed.

Lemma reaches_is_dir root p n : reaches root p n -> is_dir_at root p = is_dir_node n.
Proof. unfold reaches, is_dir_at. now intros ->. Qed.

Lemma reaches_length root ps ns :
  Forall2 (reaches root) ps ns -> len ps = len ns.
Proof.
  intros H. unfold len. f_equal.
  induction H; simpl; congruence.
Qed.

End FSFacts.

(** ** Nothing but reads *)

Module FrameFacts.
Import PyStr FS Py CheckTestProgress CountProjects.
Local Open Scope py_scope.

Lemma ro_ret {A} (a : A) : read_only (ret a).
Proof. intros w. reflexivity. Qed.

Lemma ro_raise {A} e : read_only (@raise A e).
Proof. intros w. reflexivity. Qed.

Lemma ro_print s : read_only (print s).
Proof. intros w. reflexivity. Qed.

Lemma ro_stat_node p : read_only (stat_node p).
Proof. intros w. reflexivity. Qed.

Lemma ro_datetime_now : read_only datetime_now.
Proof. intros w. reflexivity. Qed.

Lemma ro_bind {A B} (m : M A) (k : A -> M B) :
  read_only m -> (forall a, read_only (k a)) -> read_only (bind m k).
Proof.
  intros Hm Hk w. unfold bind. specialize (Hm w).
  destruct (m w) as [[a | e] w']; simpl in *.
  - now rewrite Hk.
  - exact Hm.
Qed.

Ltac frame :=
  repeat first
    [ apply ro_ret | apply ro_raise | apply ro_print | apply ro_stat_node
    | apply ro_datetime_now
    | apply ro_bind; [|intros ?]
    | match goal with
      | |- read_only (match ?x with _ => _ end) => destruct x
      | |- read_only (let '(_, _) := ?x in _) => destruct x
      end ].

Lemma ro_exists p : read_only (exists_ p).
Proof. unfold exists_. frame. Qed.

Lemma ro_is_dir p : read_only (is_dir p).
Proof. unfold is_dir. frame. Qed.

Lemma ro_is_file p : read_only (is_file p).
Proof. unfold is_file. frame. Qed.

Lemma ro_listdir p : read_only (listdir p).
Proof. unfold listdir. frame. Qed.

Lemma ro_getmtime p : read_only (getmtime p).
Proof. unfold getmtime. frame. Qed.

Lemma ro_stat_st_size p : read_only (stat_st_size p).
Proof. unfold stat_st_size. frame. Qed.

Lemma ro_glob same p pat : read_only (glob same p pat).
Proof. unfold glob. frame. Qed.

Lemma ro_rglob_star p : read_only (rglob_star p).
Proof. unfold rglob_star. frame. Qed.

Lemma ro_filterM {A} (f : A -> M bool) l :
  (forall x, read_only (f x)) -> read_only (filterM f l).
Proof. intros Hf. induction l; simpl; frame; auto. Qed.

Lemma ro_foldM {A S} (body : S -> A -> M S) l acc :
  (forall s x, read_only (body s x)) -> read_only (foldM body l acc).
Proof. intros Hb. revert acc. induction l; intros acc; simpl; frame; auto. Qed.

Lemma ro_for_each {A} (body : A -> M unit) l :
  (forall x, read_only (body x)) -> read_only (for_each l body).
Proof. intros Hb. induction l; simpl; frame; auto. Qed.

Lemma ro_and_then a b : read_only b -> read_only (and_then a b).
Proof. intros Hb. unfold and_then. destruct a; [exact Hb | apply ro_ret]. Qed.

Create HintDb frame.
#[local] Hint Resolve ro_exists ro_is_dir ro_is_file ro_listdir ro_getmtime
  ro_stat_st_size ro_glob ro_rglob_star ro_filterM ro_foldM ro_for_each
  ro_and_then ro_ret ro_print ro_datetime_now : frame.

Ltac frame' :=
  repeat first
    [ solve [auto with frame]
    | apply ro_bind; [|intros ?]
    | apply ro_filterM; intros ?
    | apply ro_foldM; intros ? ?
    | apply ro_for_each; intros ?
    | apply ro_and_then
    | match goal with
      | |- read_only (match ?x with _ => _ end) => destruct x
      | |- read_only (let '(_, _) := ?x in _) => destruct x
      end ].

Lemma ro_compare count : read_only (compare_with_checkpoint count).
Proof. unfold compare_with_checkpoint. frame'. Qed.

Lemma ro_most_recent pf : read_only (most_recent pf).
Proof. unfold most_recent. frame'. Qed.

Lemma ro_main pf : read_only (main pf).
Proof.
  unfold main. frame'; auto using ro_compare, ro_most_recent.
Qed.

Lemma ro_sum_sizes files : read_only (sum_sizes files).
Proof. unfold sum_sizes. frame'. Qed.

Lemma ro_check_indexeddb : read_only check_indexeddb.
Proof. unfold check_indexeddb. frame'; auto using ro_sum_sizes. Qed.

Lemma ro_check_storage storage : read_only (check_storage storage).
Proof. unfold check_storage. frame'. Qed.

Lemma ro_summary count : read_only (summary count).
Proof. unfold summary. frame'. Qed.

Lemma ro_check_projects pf : read_only (check_projects pf).
Proof. unfold check_projects. frame'. Qed.

Lemma ro_count_projects pf : read_only (count_projects pf).
Proof.
  unfold count_projects.
  frame'; auto using ro_check_projects, ro_check_indexeddb, ro_check_storage,
    ro_summary.
Qed.

End FrameFacts.

(** ** The project-state counter *)

Module ProjectStateCounter.
Import PyStr FS Py PyFacts LoopFacts FSFacts FloatFacts.
Import CountProjects CountProjectsFacts Samples.

Lemma project_files_nonneg same root : 0 <= project_files_at same root.
Proof.
  unfold project_files_at, len.
  destruct (exists_at root projects_folder); lia.
Qed.

(** C1. When the data directory exists, the lines printed between the
    summary heading and the closing rule are decided by the number of
    project files the run counted and by whether the IndexedDB path
    exists: zero and absent gives the clean verdict, zero and present
    the partially-clean verdict, more than zero the has-data verdict
    whatever the store; the count is never negative. *)
Theorem classification pf w root :
  fs w = Some root ->
  let count := project_files_at (glob_same_char pf) (fs w) in
  let store := exists_at (fs w) indexeddb_dir in
  exists v,
    returns (count_projects pf) w tt
      (heading pf
       ++ projects_lines (glob_same_char pf) (fs w)
       ++ indexeddb_lines (fs w)
       ++ flat_map (storage_lines (fs w)) storage_dirs
       ++ summary_header ++ v ++ closing) /\
    0 <= count /\
    (count = 0 -> store = false -> v = clean_lines) /\
    (count = 0 -> store = true -> v = partly_lines) /\
    (0 < count -> v = has_data_lines count).
Proof.
  intros Hfs count store. exists (verdict (fs w) count).
  split; [exact (count_projects_existing pf root w Hfs)|].
  split; [apply project_files_nonneg|].
  unfold verdict. fold store. repeat split.
  - intros -> ->. reflexivity.
  - intros -> ->. reflexivity.
  - intros Hpos. replace (count =? 0) with false
      by (symmetry; apply Z.eqb_neq; lia).
    reflexivity.
Qed.

Lemma classification_witness :
  exists v,
    returns (count_projects sample_platform) data_world tt
      (heading sample_platform
       ++ projects_lines N.eqb (Some sample_data)
       ++ indexeddb_lines (Some sample_data)
       ++ flat_map (storage_lines (Some sample_data)) storage_dirs
       ++ summary_header ++ v ++ closing) /\
    v = has_data_lines 1.
Proof.
  destruct (classification sample_platform data_world sample_data eq_refl)
    as [v [Hrun [_ [_ [_ Hdata]]]]].
  exists v. split; [exact Hrun | apply Hdata; reflexivity].
Defined.

Lemma fold_add_size root ps ns acc :
  Forall2 (reaches root) ps ns ->
  fold_left (add_size root) ps acc = acc + total_bytes ns.
Proof.
  intros H. revert acc. induction H as [|p n ps ns Hpn _ IH]; intros acc; simpl.
  - lia.
  - rewrite IH. unfold add_size. rewrite Hpn. lia.
Qed.

(** What the store section reports, in terms of the tree. *)
Lemma indexeddb_lines_wf root store :
  resolve root indexeddb_dir = Some store ->
  wf store ->
  indexeddb_lines root
  = [store_exists_line;
     store_dirs_line (len (dirs_under store));
     store_files_line (len (files_under store));
     size_line
       (Float.format_2f
          (Float.int_truediv (total_bytes (files_under store)) (1024 * 1024)))].
Proof.
  intros Hres Hwf. unfold indexeddb_lines, exists_at, below_at, total_size_at.
  unfold below_at. rewrite Hres.
  pose proof (descendants_reach store Hwf root indexeddb_dir Hres) as Hall.
  pose proof (reaches_filter root (is_file_at root) is_file_node _ _
                (reaches_is_file root) Hall) as Hfiles.
  pose proof (reaches_filter root (is_dir_at root) is_dir_node _ _
                (reaches_is_dir root) Hall) as Hdirs.
  rewrite (reaches_length _ _ _ Hfiles), (reaches_length _ _ _ Hdirs).
  rewrite (fold_add_size _ _ _ 0 Hfiles). reflexivity.
Qed.

(** C7, as amended.  When the IndexedDB store is a well-formed
    directory whose regular files, at any depth, total fewer than 2^53
    bytes, the run prints the total-size line with that total divided
    by 1048576 and written with two decimals (nearest hundredth, ties
    to even), after the lines counting the directories and regular
    files below the store. *)
Theorem size_computation pf w root store :
  fs w = Some root ->
  resolve (fs w) indexeddb_dir = Some store ->
  wf store ->
  0 <= total_bytes (files_under store) < 2 ^ 53 ->
  exists before rest,
    returns (count_projects pf) w tt
      (before
       ++ [store_exists_line;
           store_dirs_line (len (dirs_under store));
           store_files_line (len (files_under store));
           size_line (megabytes_text (total_bytes (files_under store)))]
       ++ rest).
Proof.
  intros Hfs Hres Hwf Hrange.
  exists (heading pf ++ projects_lines (glob_same_char pf) (fs w)).
  exists (flat_map (storage_lines (fs w)) storage_dirs
          ++ summary_header
          ++ verdict (fs w) (project_files_at (glob_same_char pf) (fs w))
          ++ closing).
  pose proof (count_projects_existing pf root w Hfs) as Hrun.
  unfold report in Hrun.
  rewrite (indexeddb_lines_wf (fs w) store Hres Hwf) in Hrun.
  unfold Float.format_2f in Hrun.
  rewrite (megabytes_exact _ Hrange) in Hrun.
  rewrite <- app_assoc. exact Hrun.
Qed.

Lemma sample_store_wf : wf sample_store.
Proof.
  simpl. repeat split; repeat constructor; simpl; intuition discriminate.
Qed.

Lemma size_computation_witness :
  exists before rest,
    returns (count_projects sample_platform) data_world tt
      (before
       ++ [store_exists_line;
           store_dirs_line 1;
           store_files_line 2;
           size_line (megabytes_text 1179648)]
       ++ rest).
Proof.
  apply (size_computation sample_platform data_world sample_data sample_store).
  - reflexivity.
  - reflexivity.
  - exact sample_store_wf.
  - split; vm_compute; congruence.
Defined.

Lemma not_member_not_in x l : member x l = false -> ~ In x l.
Proof. intros H Hin. apply member_in in Hin. congruence. Qed.

(** C7, as stated, fails: a store holding 2^53 + 2^17 + 1 bytes is
    reported as 8589934592.12 MB, although the quotient by 1048576
    lies above 8589934592.125 and is 8589934592.13 to two decimals. *)
Lemma size_computation_fails_for_huge_stores :
  exists out,
    returns (count_projects sample_platform) huge_store_world tt out /\
    In (size_line (lit "8589934592.12")) out /\
    megabytes_text (2 ^ 53 + 2 ^ 17 + 1) = lit "8589934592.13" /\
    ~ In (size_line (megabytes_text (2 ^ 53 + 2 ^ 17 + 1))) out.
Proof.
  exists (report sample_platform (fs huge_store_world)).
  split; [apply (count_projects_existing sample_platform _ huge_store_world eq_refl)|].
  split; [|split].
  - apply member_in. vm_compute. reflexivity.
  - vm_compute. reflexivity.
  - apply not_member_not_in. vm_compute. reflexivity.
Qed.

(** C8 at a projects folder that holds one directory named
    [backup.json] and no file: the run reports one JSON file and the
    has-data verdict, although no regular file there has the [.json]
    extension. *)
Theorem directory_counted_as_project_file :
  returns (count_projects sample_platform) json_directory_world tt
    (heading sample_platform
     ++ [projects_count_line 1; store_missing_line]
     ++ summary_header ++ has_data_lines 1 ++ closing) /\
  json_files json_directory_entries = [].
Proof.
  split; [|reflexivity].
  exact (count_projects_existing sample_platform _ json_directory_world eq_refl).
Qed.

End ProjectStateCounter.

(** ** Both scripts *)

Module BothScripts.
Import PyStr FS Py PyFacts CheckTestProgressFacts CountProjectsFacts.
Import FrameFacts Samples.



(** C9. Whatever the tree and however the run ends, normally or by an
    exception, each script leaves the file tree exactly as it found
    it. *)
Theorem scripts_only_read pf w :
  fs (snd (CheckTestProgress.main pf w)) = fs w /\
  fs (snd (CountProjects.count_projects pf w)) = fs w.
Proof.
  split; [apply ro_main | apply ro_count_projects].
Qed.

End BothScripts.

(** ** More on the progress reporter *)

Module ProgressReporterMore.
Import PyStr FS Py PyFacts LoopFacts SortFacts FloatFacts.
Import CheckTestProgress CheckTestProgressFacts Samples.

(** A results path that exists but is a regular file passes the
    [os.path.exists] test and makes [os.listdir] raise: the run prints
    its three opening lines and ends with [NotADirectoryError]. *)
Theorem results_path_is_a_file pf w size t :
  fs w = Some (File size t) ->
  main pf w = (Raise NotADirectoryError, after w (banner pf (clock w))).
Proof. apply main_not_a_directory. Qed.

Lemma results_path_is_a_file_witness :
  main sample_platform (mkWorld (Some (File 10 20)) 1000 [])
  = (Raise NotADirectoryError,
     after (mkWorld (Some (File 10 20)) 1000 [])
       (banner sample_platform 1000)).
Proof.
  apply (results_path_is_a_file sample_platform
           (mkWorld (Some (File 10 20)) 1000 []) 10 20).
  reflexivity.
Defined.

Lemma sorted_app_cross {A} (R : A -> A -> Prop) l1 l2 x y :
  StronglySorted R (l1 ++ l2) -> In x l1 -> In y l2 -> R x y.
Proof.
  induction l1 as [|a l1 IH]; simpl; [tauto|].
  intros Hs [-> | Hx] Hy.
  - apply StronglySorted_inv in Hs. destruct Hs as [_ Hall].
    rewrite Forall_forall in Hall. apply Hall, in_or_app. now right.
  - apply StronglySorted_inv in Hs. now apply IH.
Qed.

(** Whatever the modification times, ties included, the lines
    printed between the recent-results heading and the closing rule
    are min(N, 5) in number, and the i-th of them shows the i-th
    subdirectory of an arrangement by non-increasing modification
    time: the entries listed are the newest five, newest first. *)
Theorem shown_are_the_newest pf w t es :
  fs w = Some (Dir t es) ->
  NoDup (names es) ->
  let N := len (subdirs es) in
  exists sorted lines,
    returns (main pf) w tt
      (banner pf (clock w)
       ++ [completed_line N (percent N); checkpoint_line; times "-" 60]
       ++ comparison N ++ recent_header ++ lines ++ [footer]) /\
    Permutation sorted (subdirs es) /\
    StronglySorted (newer_or_same snd) sorted /\
    List.length lines = Nat.min (List.length (subdirs es)) 5 /\
    (forall i name mtime,
        (i < 5)%nat -> nth_error sorted i = Some (name, mtime) ->
        nth_error lines i
        = Some (str_int (Z.of_nat i + 1) ++ lit ". ["
                ++ strftime_time pf mtime ++ lit "] " ++ firstn 70 name)).
Proof.
  intros Hfs Hnd N.
  exists (sort_reverse snd (subdirs es)), (recent_lines pf (shown es)).
  split; [|split; [|split; [|split]]].
  - exact (main_directory pf t es w Hfs Hnd).
  - apply sort_reverse_perm.
  - apply sort_reverse_sorted.
  - rewrite ProgressReporter.recent_lines_length.
    apply ProgressReporter.shown_length.
  - intros i name mtime Hi Hnth. apply ProgressReporter.recent_lines_nth.
    now rewrite ProgressReporter.shown_nth.
Qed.

Lemma shown_are_the_newest_witness :
  exists sorted lines,
    returns (main sample_platform) busy_world tt
      (banner sample_platform 1000
       ++ [completed_line 6 (percent 6); checkpoint_line; times "-" 60]
       ++ comparison 6 ++ recent_header ++ lines ++ [footer]) /\
    Permutation sorted (subdirs busy_results) /\
    List.length lines = 5%nat.
Proof.
  destruct (shown_are_the_newest sample_platform busy_world 70 busy_results
              eq_refl ProgressReporter.names_nodup_busy)
    as [sorted [lines [Hrun [Hperm [_ [Hlen _]]]]]].
  exists sorted, lines. split; [exact Hrun|]. split; [exact Hperm | exact Hlen].
Defined.

Lemma sort_reverse_sorted_id {A} (key : A -> Z) l :
  StronglySorted (newer_or_same key) l -> sort_reverse key l = l.
Proof.
  induction 1 as [|x l Hs IH Hall]; simpl; [reflexivity|].
  rewrite IH. destruct l as [|y l']; [reflexivity|]. simpl.
  inversion Hall as [|? ? Hxy _]; subst. unfold newer_or_same in Hxy.
  replace (key x <? key y) with false by (symmetry; apply Z.ltb_ge; lia).
  reflexivity.
Qed.

(** The sort is stable: when the directory listing is already newest
    first, with ties in any number, the entries shown are the first
    five subdirectories in listing order. *)
Theorem listing_order_kept_on_ties es :
  StronglySorted (newer_or_same snd) (subdirs es) ->
  shown es = firstn 5 (subdirs es).
Proof. intros H. unfold shown. now rewrite sort_reverse_sorted_id. Qed.

Lemma listing_order_kept_on_ties_witness :
  shown [(lit "b", Dir 7 []); (lit "a", Dir 7 []); (lit "c", Dir 7 [])]
  = [(lit "b", 7); (lit "a", 7); (lit "c", 7)].
Proof.
  apply (listing_order_kept_on_ties
           [(lit "b", Dir 7 []); (lit "a", Dir 7 []); (lit "c", Dir 7 [])]).
  repeat constructor; unfold newer_or_same; simpl; lia.
Defined.

(** With at most 66 subdirectories the printed percentage stays within
    0..100 and reaches 100 exactly at 66. *)
Theorem percent_within_range N :
  0 <= N <= 66 ->
  0 <= percent N <= 100 /\ (percent N = 100 <-> N = 66).
Proof.
  intros HN.
  rewrite ProgressReporter.percent_floor
    by (change (2 ^ 44) with 17592186044416; lia).
  assert (Hlo : 0 <= 100 * N / 66) by (apply Z.div_pos; lia).
  assert (Hhi : 100 * N / 66 <= 100)
    by (apply Z.div_le_upper_bound; lia).
  split; [lia|]. split.
  - intros H. destruct (Z.eq_dec N 66) as [E | E]; [exact E | exfalso].
    assert (100 * N / 66 < 100) by (apply Z.div_lt_upper_bound; lia). lia.
  - intros ->. reflexivity.
Qed.

Lemma percent_within_range_witness :
  0 <= percent 40 <= 100 /\ (percent 40 = 100 <-> 40 = 66).
Proof. apply (percent_within_range 40). lia. Defined.

End ProgressReporterMore.

(** ** More on the project-state counter *)

Module ProjectStateCounterMore.
Import PyStr FS Py PyFacts LoopFacts FSFacts FloatFacts.
Import CountProjects CountProjectsFacts Samples.

(** A data path that exists but is a regular file passes the
    [exists()] test: the run reports the projects folder and the store
    as missing, prints no storage line, and gives the clean verdict. *)
Theorem data_path_is_a_file pf w size t :
  fs w = Some (File size t) ->
  returns (count_projects pf) w tt
    (heading pf ++ [projects_missing_line; store_missing_line]
     ++ summary_header ++ clean_lines ++ closing).
Proof.
  intros Hfs. pose proof (count_projects_existing pf _ w Hfs) as Hrun.
  rewrite Hfs in Hrun. exact Hrun.
Qed.

Lemma data_path_is_a_file_witness :
  returns (count_projects sample_platform)
    (mkWorld (Some (File 10 20)) 1000 []) tt
    (heading sample_platform ++ [projects_missing_line; store_missing_line]
     ++ summary_header ++ clean_lines ++ closing).
Proof.
  apply (data_path_is_a_file sample_platform
           (mkWorld (Some (File 10 20)) 1000 []) 10 20).
  reflexivity.
Defined.

(** When the projects folder is absent the run prints the
    does-not-exist line, keeps the count at zero, and the verdict is
    decided by the store alone: partially clean if the IndexedDB path
    exists, clean if not. *)
Theorem projects_folder_absent pf w root :
  fs w = Some root ->
  exists_at (fs w) projects_folder = false ->
  returns (count_projects pf) w tt
    (heading pf ++ [projects_missing_line]
     ++ indexeddb_lines (fs w)
     ++ flat_map (storage_lines (fs w)) storage_dirs
     ++ summary_header
     ++ (if exists_at (fs w) indexeddb_dir then partly_lines else clean_lines)
     ++ closing).
Proof.
  intros Hfs Habsent. pose proof (count_projects_existing pf root w Hfs) as Hrun.
  unfold report, projects_lines, project_files_at, verdict in Hrun.
  rewrite Habsent in Hrun. simpl in Hrun.
  destruct (exists_at (fs w) indexeddb_dir); exact Hrun.
Qed.

Lemma projects_folder_absent_witness :
  returns (count_projects sample_platform) huge_store_world tt
    (heading sample_platform ++ [projects_missing_line]
     ++ indexeddb_lines (fs huge_store_world)
     ++ flat_map (storage_lines (fs huge_store_world)) storage_dirs
     ++ summary_header
     ++ (if exists_at (fs huge_store_world) indexeddb_dir
         then partly_lines else clean_lines)
     ++ closing).
Proof.
  apply (projects_folder_absent sample_platform huge_store_world
           (Dir 1 [(lit "IndexedDB",
                    Dir 2 [(lit "blob", File (2 ^ 53 + 2 ^ 17 + 1) 3)])])).
  - reflexivity.
  - reflexivity.
Defined.

(** An IndexedDB path that is a regular file counts as an existing
    store with nothing in it: no directories, no files, 0.00 MB; with
    no project file the verdict is partially clean. *)
Theorem store_is_a_file pf w root size t :
  fs w = Some root ->
  resolve (fs w) indexeddb_dir = Some (File size t) ->
  project_files_at (glob_same_char pf) (fs w) = 0 ->
  returns (count_projects pf) w tt
    (heading pf
     ++ projects_lines (glob_same_char pf) (fs w)
     ++ [store_exists_line; store_dirs_line 0; store_files_line 0;
         size_line (lit "0.00")]
     ++ flat_map (storage_lines (fs w)) storage_dirs
     ++ summary_header ++ partly_lines ++ closing).
Proof.
  intros Hfs Hres Hzero.
  pose proof (count_projects_existing pf root w Hfs) as Hrun.
  unfold report in Hrun.
  rewrite (ProjectStateCounter.indexeddb_lines_wf (fs w) (File size t) Hres I)
    in Hrun.
  unfold verdict in Hrun. rewrite Hzero in Hrun.
  unfold exists_at in Hrun at 1 2. rewrite Hres in Hrun. exact Hrun.
Qed.

Lemma store_is_a_file_witness :
  returns (count_projects sample_platform)
    (mkWorld (Some (Dir 1 [(lit "IndexedDB", File 10 20)])) 1000 []) tt
    (heading sample_platform
     ++ projects_lines N.eqb (Some (Dir 1 [(lit "IndexedDB", File 10 20)]))
     ++ [store_exists_line; store_dirs_line 0; store_files_line 0;
         size_line (lit "0.00")]
     ++ flat_map (storage_lines (Some (Dir 1 [(lit "IndexedDB", File 10 20)])))
          storage_dirs
     ++ summary_header ++ partly_lines ++ closing).
Proof.
  apply (store_is_a_file sample_platform
           (mkWorld (Some (Dir 1 [(lit "IndexedDB", File 10 20)])) 1000 [])
           (Dir 1 [(lit "IndexedDB", File 10 20)]) 10 20).
  - reflexivity.
  - reflexivity.
  - reflexivity.
Defined.

(** The two counts printed for an existing store are the numbers of
    directories and of regular files below it at any depth, whatever
    their sizes. *)
Theorem store_counts pf w root store :
  fs w = Some root ->
  resolve (fs w) indexeddb_dir = Some store ->
  wf store ->
  exists before size rest,
    returns (count_projects pf) w tt
      (before
       ++ [store_exists_line;
           store_dirs_line (len (dirs_under store));
           store_files_line (len (files_under store));
           size_line size]
       ++ rest).
Proof.
  intros Hfs Hres Hwf.
  exists (heading pf ++ projects_lines (glob_same_char pf) (fs w)).
  eexists.
  exists (flat_map (storage_lines (fs w)) storage_dirs
          ++ summary_header
          ++ verdict (fs w) (project_files_at (glob_same_char pf) (fs w))
          ++ closing).
  pose proof (count_projects_existing pf root w Hfs) as Hrun.
  unfold report in Hrun.
  rewrite (ProjectStateCounter.indexeddb_lines_wf (fs w) store Hres Hwf) in Hrun.
  rewrite <- app_assoc. exact Hrun.
Qed.

Lemma store_counts_witness :
  exists before size rest,
    returns (count_projects sample_platform) data_world tt
      (before
       ++ [store_exists_line; store_dirs_line 1; store_files_line 2;
           size_line size]
       ++ rest).
Proof.
  apply (store_counts sample_platform data_world sample_data sample_store).
  - reflexivity.
  - reflexivity.
  - exact ProjectStateCounter.sample_store_wf.
Defined.

Lemma storage_lines_reported root storage :
  storage_reported root storage (storage_lines root storage).
Proof.
  unfold storage_reported, storage_lines, exists_at, below_at.
  change (join qcut_dir storage) with [storage]. split.
  - now intros ->.
  - intros n Hres Hwf. rewrite Hres.
    pose proof (descendants_reach n Hwf root _ Hres) as Hall.
    pose proof (reaches_filter root (is_file_at root) is_file_node _ _
                  (reaches_is_file root) Hall) as Hfiles.
    now rewrite (reaches_length _ _ _ Hfiles).
Qed.

(** Just before the summary heading the run reports the four other
    storage directories in this order: Local Storage, Session Storage,
    blob_storage, File System.  For each it prints nothing when the
    path is absent and one line with the number of regular files below
    it, at any depth, when it is present. *)
Theorem storage_report pf w root :
  fs w = Some root ->
  exists locals sessions blobs files rest,
    returns (count_projects pf) w tt
      (heading pf ++ projects_lines (glob_same_char pf) (fs w)
       ++ indexeddb_lines (fs w)
       ++ locals ++ sessions ++ blobs ++ files
       ++ summary_header ++ rest) /\
    storage_reported (fs w) (lit "Local Storage") locals /\
    storage_reported (fs w) (lit "Session Storage") sessions /\
    storage_reported (fs w) (lit "blob_storage") blobs /\
    storage_reported (fs w) (lit "File System") files.
Proof.
  intros Hfs.
  exists (storage_lines (fs w) (lit "Local Storage")),
         (storage_lines (fs w) (lit "Session Storage")),
         (storage_lines (fs w) (lit "blob_storage")),
         (storage_lines (fs w) (lit "File System")),
         (verdict (fs w) (project_files_at (glob_same_char pf) (fs w))
          ++ closing).
  split; [|repeat split; apply storage_lines_reported].
  pose proof (count_projects_existing pf root w Hfs) as Hrun.
  unfold report in Hrun. simpl flat_map in Hrun.
  rewrite app_nil_r, <- !app_assoc in Hrun. exact Hrun.
Qed.

Lemma storage_report_witness :
  exists rest,
    returns (count_projects sample_platform) storage_world tt
      (heading sample_platform ++ projects_lines N.eqb (fs storage_world)
       ++ indexeddb_lines (fs storage_world)
       ++ [storage_count_line (lit "Local Storage") 2;
           storage_count_line (lit "blob_storage") 0;
           storage_count_line (lit "File System") 1]
       ++ summary_header ++ rest).
Proof.
  destruct (storage_report sample_platform storage_world storage_data eq_refl)
    as [locals [sessions [blobs [files [rest [Hrun [Hl [Hs [Hb Hf]]]]]]]]].
  exists rest.
  rewrite (proj1 Hs eq_refl) in Hrun.
  rewrite (proj2 Hl _ eq_refl), (proj2 Hb _ eq_refl), (proj2 Hf _ eq_refl)
    in Hrun
    by (simpl; repeat split; repeat constructor; simpl; intuition discriminate).
  exact Hrun.
Defined.

End ProjectStateCounterMore.

(** ** What the glob pattern counts *)

Module GlobFacts.
Import PyStr FS Py LoopFacts CountProjects Samples.

(** The unfolding of a leading star. *)
Lemma fnmatch_star same pat name :
  fnmatch same (42%N :: pat) name
  = fnmatch same pat name
    || match name with
       | [] => false
       | _ :: name' => fnmatch same (42%N :: pat) name'
       end.
Proof. destruct name; reflexivity. Qed.

(** A pattern with no wildcard matches itself only, when characters
    are compared exactly. *)
Lemma fnmatch_literal pat name :
  Forall (fun c => c <> 42%N /\ c <> 63%N) pat ->
  fnmatch N.eqb pat name = eqb pat name.
Proof.
  intros Hlit. revert name.
  induction Hlit as [|c pat [H42 H63] _ IH]; intros name; simpl.
  - now destruct name.
  - apply N.eqb_neq in H42, H63. rewrite H42, H63. simpl.
    destruct name as [|d name]; [reflexivity|]. now rewrite IH.
Qed.

Lemma starts_with_iff p s :
  starts_with p s = true <-> exists rest, s = p ++ rest.
Proof.
  revert s. induction p as [|x p IH]; intros s; simpl.
  - split; [intros _; now exists s | reflexivity].
  - destruct s as [|y s]; [split; [discriminate | intros [r Hr]; discriminate]|].
    rewrite andb_true_iff, N.eqb_eq, IH. split.
    + intros [-> [rest ->]]. now exists rest.
    + intros [rest Hr]. inversion Hr; subst. split; [reflexivity | now exists rest].
Qed.

Lemma ends_with_iff suffix name :
  ends_with suffix name = true <-> exists front, name = front ++ suffix.
Proof.
  unfold ends_with. rewrite starts_with_iff. split.
  - intros [rest Hr]. exists (rev rest).
    rewrite <- (rev_involutive name), Hr, rev_app_distr.
    now rewrite rev_involutive.
  - intros [front ->]. exists (rev front). apply rev_app_distr.
Qed.

Lemma star_literal_iff pat name :
  Forall (fun c => c <> 42%N /\ c <> 63%N) pat ->
  fnmatch N.eqb (42%N :: pat) name = true
  <-> exists front, name = front ++ pat.
Proof.
  intros Hlit. induction name as [|c name IH].
  - rewrite fnmatch_star, orb_false_r, (fnmatch_literal _ _ Hlit), eqb_eq.
    split.
    + intros ->. now exists [].
    + intros [front Hf]. symmetry in Hf.
      apply app_eq_nil in Hf. now destruct Hf.
  - rewrite fnmatch_star, orb_true_iff, (fnmatch_literal _ _ Hlit), eqb_eq, IH.
    split.
    + intros [-> | [front ->]]; [now exists [] | now exists (c :: front)].
    + intros [[|d front] Hf]; simpl in Hf.
      * left. now symmetry.
      * right. inversion Hf; subst. now exists front.
Qed.

Lemma star_json name :
  fnmatch N.eqb (lit "*.json") name = ends_with (lit ".json") name.
Proof.
  apply eq_true_iff_eq. change (lit "*.json") with (42%N :: lit ".json").
  rewrite star_literal_iff, ends_with_iff; [reflexivity|].
  repeat constructor; discriminate.
Qed.

(** On a platform whose glob compares characters exactly, the number
    of project files the run counts and prints is the number of
    entries of the projects folder, of any kind, whose name ends in
    [.json]; it is the number of regular files with that extension
    whenever no directory there is named that way. *)
Theorem project_count_by_name pf w t es :
  glob_same_char pf = N.eqb ->
  resolve (fs w) projects_folder = Some (Dir t es) ->
  let count := len (filter (fun e => ends_with (lit ".json") (fst e)) es) in
  returns (check_projects pf) w count [projects_count_line count] /\
  ((forall e, In e es -> is_dir_node (snd e) = true ->
              ends_with (lit ".json") (fst e) = false) ->
   count = len (json_files es)).
Proof.
  intros Hsame Hres count.
  assert (Hcount : project_files_at (glob_same_char pf) (fs w) = count).
  { unfold project_files_at, exists_at, glob_at. rewrite Hres, Hsame.
    unfold count, len, names. rewrite length_map, filter_map_fst, length_map.
    do 2 f_equal. apply filter_ext. intros e. apply star_json. }
  split.
  - pose proof (CountProjectsFacts.returns_check_projects pf w) as Hrun.
    unfold projects_lines in Hrun. rewrite Hcount in Hrun.
    unfold exists_at in Hrun. rewrite Hres in Hrun. exact Hrun.
  - intros Hnodir. unfold count, json_files. f_equal.
    apply filter_ext_in. intros e He.
    destruct (is_dir_node (snd e)) eqn:Hd.
    + rewrite (Hnodir e He Hd). now rewrite andb_false_r.
    + destruct (snd e); [reflexivity | discriminate].
Qed.

Lemma project_count_by_name_witness :
  returns (check_projects sample_platform) data_world 1
    [projects_count_line 1].
Proof.
  apply (proj1 (project_count_by_name sample_platform data_world 2
                  [(lit "demo.json", File 120 3); (lit "notes.txt", File 5 4)]
                  eq_refl eq_refl)).
Defined.

End GlobFacts.
